(** * aRPC: frame codec, server dispatcher and address resolver

    A shallow embedding of the Go sources
      - package [rpc] (src/unnamed/part_000): [parseFramedRequest],
        [frameResponse], [Server.RegisterService], [Server.Start];
      - package [balancer] (src/unnamed/part_001):
        [Resolver.ResolveUDPTarget];
    and the properties of the specification that concern them.  Line
    numbers are those of the source file of the section they stand in. *)

From Stdlib Require Import ZArith List String Ascii Lia Sorted.
From Stdlib Require Strings.Byte.
From stdpp Require Import gmap strings list fin_maps.

Import ListNotations.
Local Open Scope Z_scope.

(* ===================================================================== *)
(** ** Go values: results, bytes, slices *)
(* ===================================================================== *)

Abbreviation byte := Init.Byte.byte.

(** What a call of a Go function that returns [(T, error)] can do: return a
    value with a nil error, return a non-nil error, or panic.  Nothing in
    the server recovers from a panic, so a panic ends the process. *)
Inductive result (E A : Type) : Type :=
| Ok (a : A)
| Err (e : E)
| Panic (msg : string).
Arguments Ok {E A} a.
Arguments Err {E A} e.
Arguments Panic {E A} msg.

Definition rbind {E A B} (r : result E A) (k : A -> result E B) : result E B :=
  match r with
  | Ok a => k a
  | Err e => Err e
  | Panic m => Panic m
  end.

#[global] Instance result_bind {E} : MBind (result E) := fun A B k r => rbind r k.
#[global] Instance result_ret {E} : MRet (result E) := fun A a => Ok a.

Definition byte_to_Z (b : byte) : Z := Z.of_N (Byte.to_N b).

(** Go's conversion [byte(v)]: the low eight bits. *)
Definition byte_of_Z (v : Z) : byte :=
  match Byte.of_N (Z.to_N (Z.land v 255)) with
  | Some b => b
  | None => Byte.x00
  end.

(** Go's conversion [uint16(n)] of an [int]: the low sixteen bits. *)
Definition uint16 (n : Z) : Z := n mod 2 ^ 16.

(** [[]byte(s)] and [string(b)]: a Go string is its bytes. *)
Definition bytes_of_string (s : string) : list byte := list_byte_of_string s.
Definition string_of_bytes (b : list byte) : string := string_of_list_byte b.

(** [len(s)] of a string, as a Go [int]. *)
Definition slen (s : string) : Z := Z.of_nat (String.length s).

(** A Go slice: the backing array from the slice's first element up to its
    capacity, and the slice's length.  [cap] is the length of [arr]. *)
Record slice : Type := Slice { arr : list byte; len : nat }.

Definition cap (s : slice) : nat := length (arr s).
Definition slice_wf (s : slice) : Prop := (len s <= cap s)%nat.

(** The elements a slice shows: [s[0], ..., s[len(s)-1]]. *)
Definition elems (s : slice) : list byte := firstn (len s) (arr s).

(** A slice that shows [b] and has no spare capacity. *)
Definition slice_of (b : list byte) : slice := Slice b (length b).

(** The slice expression [s[lo:hi]]: Go panics unless
    [0 <= lo <= hi <= cap(s)]. *)
Definition reslice {E} (s : slice) (lo hi : Z) : result E slice :=
  if (0 <=? lo) && (lo <=? hi) && (hi <=? Z.of_nat (cap s))
  then Ok (Slice (skipn (Z.to_nat lo) (arr s)) (Z.to_nat (hi - lo)))
  else Panic "slice bounds out of range".

(** The slice expression [s[lo:]], that is [s[lo:len(s)]]. *)
Definition slice_from {E} (s : slice) (lo : Z) : result E slice :=
  reslice s lo (Z.of_nat (len s)).

(** [binary.LittleEndian.Uint16(b)]:
      _ = b[1]  // bounds check
      return uint16(b[0]) | uint16(b[1])<<8 *)
Definition Uint16 {E} (b : slice) : result E Z :=
  match elems b with
  | b0 :: b1 :: _ => Ok (Z.lor (byte_to_Z b0) (Z.shiftl (byte_to_Z b1) 8))
  | _ => Panic "index out of range"
  end.

(** What [binary.Write(buf, binary.LittleEndian, v)] appends for a [uint16]:
    [byte(v)], [byte(v >> 8)]. *)
Definition PutUint16 (v : Z) : list byte :=
  [byte_of_Z v; byte_of_Z (Z.shiftr v 8)].

(* ===================================================================== *)
(** ** Frame codec (package rpc) *)
(* ===================================================================== *)

(** Errors of the frame functions.  [parseFramedRequest] has an [error]
    result but no statement that builds one. *)
Inductive frame_error : Type := MalformedFrame.

(** [parseFramedRequest] (lines 63-88). *)
Definition parseFramedRequest (data : slice)
  : result frame_error (string * string * slice * slice) :=
  let offset := 0 in
  (* Service *)
  b ← slice_from data offset;
  serviceLen ← Uint16 b;
  let offset := offset + 2 in
  sv ← reslice data offset (offset + serviceLen);
  let service := string_of_bytes (elems sv) in
  let offset := offset + serviceLen in
  (* Method *)
  b ← slice_from data offset;
  methodLen ← Uint16 b;
  let offset := offset + 2 in
  mt ← reslice data offset (offset + methodLen);
  let method := string_of_bytes (elems mt) in
  let offset := offset + methodLen in
  (* Headers *)
  b ← slice_from data offset;
  headerLen ← Uint16 b;
  let offset := offset + 2 in
  headers ← reslice data offset (offset + headerLen);
  let offset := offset + headerLen in
  (* Payload *)
  payload ← slice_from data offset;
  Ok (service, method, headers, payload).

(** [frameResponse] (lines 90-123).  The [bytes.Buffer] is the list
    of the bytes written so far; [binary.Write] of a [uint16] and
    [Buffer.Write] do not fail.  The result is what [buf.Bytes()] shows. *)
Definition frameResponse (service method : string) (headers payload : list byte)
  : result frame_error (list byte) :=
  let buf := [] in
  (* Write service name *)
  let buf := buf ++ PutUint16 (uint16 (slen service)) in
  let buf := buf ++ bytes_of_string service in
  (* Write method name *)
  let buf := buf ++ PutUint16 (uint16 (slen method)) in
  let buf := buf ++ bytes_of_string method in
  (* Write header bytes *)
  let buf := buf ++ PutUint16 (uint16 (Z.of_nat (length headers))) in
  let buf := buf ++ headers in
  (* Write payload *)
  let buf := buf ++ payload in
  Ok buf.

(* ===================================================================== *)
(** ** Server dispatcher (package rpc) *)
(* ===================================================================== *)

(** Errors of the collaborators are opaque to the server: it only logs them. *)
Definition error : Type := string.

(** The metadata bag of [pkg/metadata]: keys to lists of values. *)
Abbreviation MD := (gmap string (list string)).

(** What the server uses of [context] and [pkg/metadata], which are not among
    the sources: the type of contexts, [context.Background()],
    [metadata.NewIncomingContext] and [metadata.FromOutgoingContext].
    [V] is the type of application values and [W] the state of the world
    outside the server (of interceptors, handlers and the transport). *)
Class Runtime : Type := {
  V : Type;
  W : Type;
  context : Type;
  Background : context;
  NewIncomingContext : context -> MD -> context;
  FromOutgoingContext : context -> MD;
}.

Section Dispatcher.
Context `{RT : Runtime}.

(** Go's [any], as far as the server looks into it: line 191 asserts that a
    payload is a [[]byte]. *)
Inductive any : Type :=
| ABytes (b : slice)
| AValue (v : V)
| ANil.

(** [element.RPCRequest] and [element.RPCResponse] (lines 149-154, 199-202). *)
Record RPCRequest : Type := {
  ID : Z;
  ServiceName : string;
  Method : string;
  Payload : any;
}.

Record RPCResponse : Type := {
  Result : any;
  Error : option error;
}.

(** [MethodHandler] (line 17).  [dec] is given as what calling it does: the
    decoded value, the serializer's error, or the panic of line 191.  A
    handler returns [(resp, newCtx, nil)] ([Ok]), a non-nil error ([Err]),
    or lets a panic through. *)
Definition MethodHandler : Type :=
  any -> context -> result error V -> W -> result error (any * context) * W.

(** [MethodDesc] and [ServiceDesc] (lines 20-30). *)
Record MethodDesc : Type := {
  MethodName : string;
  Handler : MethodHandler;
}.

Record ServiceDesc : Type := {
  ServiceImpl : any;
  ServiceName' : string;
  Methods : gmap string MethodDesc;
}.

(** The collaborators behind the server's fields.  The serializer and the
    metadata codec are functions of their arguments; the interceptor chain
    and the transport also see and change the world. *)
Record Serializer : Type := {
  Marshal : any -> result error (list byte);
  Unmarshal : slice -> result error V;
}.

Record MetadataCodec : Type := {
  DecodeHeaders : slice -> result error MD;
  EncodeHeaders : MD -> result error (list byte);
}.

Record RPCElementChain : Type := {
  ProcessRequest : context -> RPCRequest -> W -> result error RPCRequest * W;
  ProcessResponse : context -> RPCResponse -> W -> result error RPCResponse * W;
}.

Record UDPTransport : Type := {
  Send : string -> Z -> list byte -> W -> result error unit * W;
}.

(** [Server] (lines 33-39). *)
Record Server : Type := {
  transport : UDPTransport;
  serializer : Serializer;
  metadataCodec : MetadataCodec;
  services : gmap string ServiceDesc;
  rpcElementChain : RPCElementChain;
}.

(** What [s.transport.Receive] hands to the loop (lines 131-139): an error,
    a nil [data] while fragments are missing, or a reassembled payload with
    the peer's address (as [addr.String()]) and the rpc id. *)
Inductive received : Type :=
| RecvErr (e : error)
| RecvNil
| RecvData (data : slice) (addr : string) (rpcID : Z).

(** The lines the server logs. [LReceivedHeaders] stands for line 184 and the
    lines of the loop at 185-187, one per key in Go's map order. *)
Inductive logmsg : Type :=
| LServerStarted
| LRegistered (service : string)
| LErrorReceiving (e : error)
| LFailedParse (e : frame_error)
| LElementError (e : error)
| LUnknownService (service : string)
| LUnknownMethod (service method : string)
| LFailedDecodeHeaders (e : error)
| LReceivedHeaders (service method : string) (md : MD)
| LHandlerError (e : error)
| LElementResponseError (e : error)
| LErrorMarshaling (e : error)
| LFailedEncodeHeaders (e : error)
| LFailedFrame (e : frame_error)
| LErrorSending (e : error).

(** What one turn of the loop does, in program order, each step with what
    it was given and what came back. *)
Inductive event : Type :=
| ELog (m : logmsg)
| EParse (data : slice) (out : result frame_error (string * string * slice * slice))
| EProcessRequest (ctx : context) (req : RPCRequest) (out : result error RPCRequest)
| ELookupService (service : string) (found : bool)
| ELookupMethod (service method : string) (found : bool)
| EDecodeHeaders (b : slice) (out : result error MD)
| EHandler (service method : string) (srv : any) (ctx : context) (payload : any)
    (out : result error (any * context))
| EProcessResponse (ctx : context) (resp : RPCResponse) (out : result error RPCResponse)
| EMarshal (v : any) (out : result error (list byte))
| EEncodeHeaders (md : MD) (out : result error (list byte))
| EFrame (service method : string) (headers payload : list byte)
    (out : result frame_error (list byte))
| ESend (addr : string) (rpcID : Z) (data : list byte) (out : result error unit).

(** How a piece of the loop body ends: it falls through to the next
    statement, executes [continue], or panics. *)
Inductive flow (A : Type) : Type :=
| Next (a : A)
| Continue
| Crash (msg : string).
Arguments Next {A} a.
Arguments Continue {A}.
Arguments Crash {A} msg.

(** Loop-body computations: from the world, the events in order, the world
    after, and how it ended. *)
Definition M (A : Type) : Type := W -> list event * W * flow A.

#[global] Instance M_ret : MRet M := fun A a w => ([], w, Next a).

#[global] Instance M_bind : MBind M := fun A B k m w =>
  match m w with
  | (e1, w1, Next a) => let '(e2, w2, f) := k a w1 in (e1 ++ e2, w2, f)
  | (e1, w1, Continue) => (e1, w1, Continue)
  | (e1, w1, Crash msg) => (e1, w1, Crash msg)
  end.

Definition log (m : logmsg) : M unit := fun w => ([ELog m], w, Next tt).

Definition continue {A} : M A := fun w => ([], w, Continue).

(** [v, err := f(...); if err != nil { log.Printf(...); continue }] for a
    step [f] that works on the world, recorded as [ev]. *)
Definition call {E A} (f : W -> result E A * W) (ev : result E A -> event)
    (onerr : E -> logmsg) : M A := fun w =>
  let '(out, w') := f w in
  match out with
  | Ok a => ([ev out], w', Next a)
  | Err e => ([ev out; ELog (onerr e)], w', Continue)
  | Panic msg => ([ev out], w', Crash msg)
  end.

(** The same for a step that does not touch the world. *)
Definition step {E A} (out : result E A) (ev : result E A -> event)
    (onerr : E -> logmsg) : M A :=
  call (fun w => (out, w)) ev onerr.

(** [v, ok := m[k]; if !ok { log.Printf(...); continue }]. *)
Definition lookup_or {A} (v : option A) (ev : bool -> event) (miss : logmsg) : M A :=
  fun w =>
  match v with
  | Some a => ([ev true], w, Next a)
  | None => ([ev false; ELog miss], w, Continue)
  end.

(** [RegisterService] (lines 57-60): the descriptor is stored under its
    name; [impl] is not used. *)
Definition RegisterService (s : Server) (desc : ServiceDesc) (impl : any)
  : Server * list logmsg :=
  ({| transport := transport s;
      serializer := serializer s;
      metadataCodec := metadataCodec s;
      services := <[ServiceName' desc := desc]> (services s);
      rpcElementChain := rpcElementChain s |},
   [LRegistered (ServiceName' desc)]).

(** The closure of lines 190-192:
      func(v any) error { return s.serializer.Unmarshal(rpcReq.Payload.([]byte), v) } *)
Definition dec (s : Server) (rpcReq : RPCRequest) : result error V :=
  match Payload rpcReq with
  | ABytes b => Unmarshal (serializer s) b
  | _ => Panic "interface conversion: interface {} is not []uint8"
  end.

(** One turn of the loop of [Start] (lines 130-236). *)
Definition loop_body (s : Server) (r : received) : M unit :=
  match r with
  | RecvErr e => log (LErrorReceiving e);; continue
  | RecvNil => continue
  | RecvData data addr rpcID =>
    (* Parse request header and payload *)
    '(serviceName, methodName, reqHeaderBytes, reqPayloadBytes) ←
      step (parseFramedRequest data) (EParse data) LFailedParse;
    (* Create RPC request for element processing *)
    let rpcReq := {| ID := rpcID; ServiceName := serviceName;
                     Method := methodName; Payload := ABytes reqPayloadBytes |} in
    (* Process request through RPC elements *)
    rpcReq ← call (ProcessRequest (rpcElementChain s) Background rpcReq)
                  (EProcessRequest Background rpcReq) LElementError;
    (* Lookup service and method *)
    svcDesc ← lookup_or (services s !! ServiceName rpcReq)
                  (ELookupService (ServiceName rpcReq))
                  (LUnknownService (ServiceName rpcReq));
    methodDesc ← lookup_or (Methods svcDesc !! Method rpcReq)
                  (ELookupMethod (ServiceName rpcReq) (Method rpcReq))
                  (LUnknownMethod (ServiceName rpcReq) (Method rpcReq));
    (* Decode headers *)
    md ← step (DecodeHeaders (metadataCodec s) reqHeaderBytes)
              (EDecodeHeaders reqHeaderBytes) LFailedDecodeHeaders;
    let ctx := NewIncomingContext Background md in
    (* Log all headers *)
    log (LReceivedHeaders (ServiceName rpcReq) (Method rpcReq) md);;
    (* Invoke method handler *)
    '(resp, ctx) ← call (Handler methodDesc (ServiceImpl svcDesc) ctx (dec s rpcReq))
                  (EHandler (ServiceName rpcReq) (Method rpcReq)
                            (ServiceImpl svcDesc) ctx (Payload rpcReq))
                  LHandlerError;
    (* Create RPC response for element processing; err is nil here *)
    let rpcResp := {| Result := resp; Error := None |} in
    (* Process response through RPC elements *)
    rpcResp ← call (ProcessResponse (rpcElementChain s) ctx rpcResp)
                  (EProcessResponse ctx rpcResp) LElementResponseError;
    (* Serialize response *)
    respPayloadBytes ← step (Marshal (serializer s) (Result rpcResp))
                  (EMarshal (Result rpcResp)) LErrorMarshaling;
    (* Extract response headers from context *)
    let respMD := FromOutgoingContext ctx in
    respHeaderBytes ← step (EncodeHeaders (metadataCodec s) respMD)
                  (EEncodeHeaders respMD) LFailedEncodeHeaders;
    (* Frame response *)
    framedResp ← step (frameResponse (ServiceName rpcReq) (Method rpcReq)
                                     respHeaderBytes respPayloadBytes)
                  (EFrame (ServiceName rpcReq) (Method rpcReq)
                          respHeaderBytes respPayloadBytes)
                  LFailedFrame;
    call (Send (transport s) addr rpcID framedResp)
         (ESend addr rpcID framedResp) LErrorSending
  end.

(** How far the loop got on the messages received so far: it is back in
    [Receive], or the process died of a panic. *)
Inductive status : Type :=
| Receiving
| Panicked (msg : string).

(** The loop of [Start] over the messages the transport delivers, in order. *)
Fixpoint serve (s : Server) (inputs : list received) (w : W)
  : list event * W * status :=
  match inputs with
  | [] => ([], w, Receiving)
  | r :: rest =>
    match loop_body s r w with
    | (e1, w1, Crash msg) => (e1, w1, Panicked msg)
    | (e1, w1, _) => let '(e2, w2, st) := serve s rest w1 in (e1 ++ e2, w2, st)
    end
  end.

(** [Start] (lines 126-238). *)
Definition Start (s : Server) (inputs : list received) (w : W)
  : list event * W * status :=
  let '(e, w', st) := serve s inputs w in (ELog LServerStarted :: e, w', st).

(** The events of one turn. *)
Definition events (s : Server) (r : received) (w : W) : list event :=
  (loop_body s r w).1.1.

(** The stages of section 4.I of the specification that an event belongs to. *)
Inductive stage : Type :=
| PARSE_FRAME | LOOKUP | DECODE_HEADERS | REQUEST_INTERCEPT | INVOKE
| RESPONSE_INTERCEPT | MARSHAL | SEND.

Definition stage_of (e : event) : option stage :=
  match e with
  | ELog _ => None
  | EParse _ _ => Some PARSE_FRAME
  | EProcessRequest _ _ _ => Some REQUEST_INTERCEPT
  | ELookupService _ _ | ELookupMethod _ _ _ => Some LOOKUP
  | EDecodeHeaders _ _ => Some DECODE_HEADERS
  | EHandler _ _ _ _ _ _ => Some INVOKE
  | EProcessResponse _ _ _ => Some RESPONSE_INTERCEPT
  | EMarshal _ _ | EEncodeHeaders _ _ | EFrame _ _ _ _ _ => Some MARSHAL
  | ESend _ _ _ _ => Some SEND
  end.

Definition stages (evs : list event) : list stage := omap stage_of evs.

(** The number of each stage in the specification's list (4.I, steps 2-9). *)
Definition spec_rank (st : stage) : nat :=
  match st with
  | PARSE_FRAME => 2 | LOOKUP => 3 | DECODE_HEADERS => 4
  | REQUEST_INTERCEPT => 5 | INVOKE => 6 | RESPONSE_INTERCEPT => 7
  | MARSHAL => 8 | SEND => 9
  end%nat.

(** The place of each stage in the loop body as written. *)
Definition code_rank (st : stage) : nat :=
  match st with
  | PARSE_FRAME => 1 | REQUEST_INTERCEPT => 2 | LOOKUP => 3
  | DECODE_HEADERS => 4 | INVOKE => 5 | RESPONSE_INTERCEPT => 6
  | MARSHAL => 7 | SEND => 8
  end%nat.

(** The stages of a turn that runs to the end, as the loop body has them. *)
Definition code_stages : list stage :=
  [PARSE_FRAME; REQUEST_INTERCEPT; LOOKUP; LOOKUP; DECODE_HEADERS; INVOKE;
   RESPONSE_INTERCEPT; MARSHAL; MARSHAL; MARSHAL; SEND].

(** A run of stages follows a ranking when no stage comes before one of
    lower rank. *)
Definition follows (rank : stage -> nat) (l : list stage) : Prop :=
  StronglySorted (fun a b => (rank a <= rank b)%nat) l.

Definition is_send (e : event) : bool :=
  match e with ESend _ _ _ _ => true | _ => false end.

Definition after_handler (e : event) : bool :=
  match e with
  | EProcessResponse _ _ _ | EMarshal _ _ | EEncodeHeaders _ _
  | EFrame _ _ _ _ _ | ESend _ _ _ _ => true
  | _ => false
  end.

(** The handler was called with the [ServiceImpl] of the descriptor
    registered under the service's name. *)
Definition handler_gets_desc_impl (s : Server) (e : event) : Prop :=
  match e with
  | EHandler service _ srv _ _ _ =>
      exists d, services s !! service = Some d /\ srv = ServiceImpl d
  | _ => True
  end.

(** An event that is no send, or a send to the peer and under the rpc id of
    the message received. *)
Definition send_answers (r : received) (e : event) : Prop :=
  match e with
  | ESend a i _ _ => exists d, r = RecvData d a i
  | _ => True
  end.


(** What [NewServer] uses of the packages [transport], [metadata] and
    [element], which are not among the sources: the elements' type,
    [transport.NewUDPTransport], [element.NewRPCElementChain] and the value
    [metadata.MetadataCodec{}]. *)
Record Packages : Type := {
  RPCElement : Type;
  NewUDPTransport : string -> result error UDPTransport;
  NewRPCElementChain : list RPCElement -> RPCElementChain;
  codec : MetadataCodec;
}.

(** [NewServer] (lines 42-54). *)
Definition NewServer (P : Packages) (addr : string) (serializer : Serializer)
    (rpcElements : list (RPCElement P)) : result error Server :=
  udpTransport ← NewUDPTransport P addr;
  Ok {| transport := udpTransport;
        serializer := serializer;
        metadataCodec := codec P;
        services := ∅;
        rpcElementChain := NewRPCElementChain P rpcElements |}.

(** The line logged for a request that names no registered method, if it
    names none (lines 164-173). *)
Definition miss_log (s : Server) (req : RPCRequest) : option logmsg :=
  match services s !! ServiceName req with
  | None => Some (LUnknownService (ServiceName req))
  | Some d =>
      match Methods d !! Method req with
      | None => Some (LUnknownMethod (ServiceName req) (Method req))
      | Some _ => None
      end
  end.

End Dispatcher.

Arguments Next {A} a.
Arguments Continue {A}.
Arguments Crash {A} msg.

(* ===================================================================== *)
(** ** Address resolver (package balancer) *)
(* ===================================================================== *)

Module Resolve.

(** *** What the resolver uses of Go's standard library *)

(** [strings.IndexByte] and [strings.LastIndexByte]: the index of the first
    and of the last occurrence of [c] in [s], or -1. *)
Fixpoint IndexByte (s : string) (c : ascii) : Z :=
  match s with
  | EmptyString => -1
  | String a s' =>
      if Ascii.eqb a c then 0
      else let i := IndexByte s' c in if i <? 0 then -1 else i + 1
  end.

Fixpoint LastIndexByte (s : string) (c : ascii) : Z :=
  match s with
  | EmptyString => -1
  | String a s' =>
      let i := LastIndexByte s' c in
      if 0 <=? i then i + 1 else if Ascii.eqb a c then 0 else -1
  end.

(** The Go expressions [s[i:j]], [s[i:]] and [s[i]] for indices in range. *)
Definition sub (s : string) (i j : Z) : string :=
  String.substring (Z.to_nat i) (Z.to_nat (j - i)) s.

Definition from (s : string) (i : Z) : string := sub s i (slen s).

Definition at_ (s : string) (i : Z) : option ascii := String.get (Z.to_nat i) s.

(** [net.AddrError], by its [Err] text. *)
Inductive AddrError : Type :=
| MissingPort | TooManyColons | MissingRBracket
| UnexpectedLBracket | UnexpectedRBracket.

(** [net.SplitHostPort]: "host:port", "[host]:port" (for a host with
    colons), with the port after the last colon. *)
Definition SplitHostPort (hostport : string) : result AddrError (string * string) :=
  let i := LastIndexByte hostport ":" in
  if i <? 0 then Err MissingPort else
  let bracketed :=
    match at_ hostport 0 with
    | Some c => Ascii.eqb c "["
    | None => false
    end in
  hjk ← (if bracketed then
           let end_ := IndexByte hostport "]" in
           if end_ <? 0 then Err MissingRBracket
           else if end_ + 1 =? slen hostport then Err MissingPort
           else if end_ + 1 =? i then Ok (sub hostport 1 end_, 1, end_ + 1)
           else match at_ hostport (end_ + 1) with
                | Some ":"%char => Err TooManyColons
                | _ => Err MissingPort
                end
         else
           let host := sub hostport 0 i in
           if 0 <=? IndexByte host ":" then Err TooManyColons
           else Ok (host, 0, 0));
  let '(host, j, k) := hjk in
  if 0 <=? IndexByte (from hostport j) "[" then Err UnexpectedLBracket
  else if 0 <=? IndexByte (from hostport k) "]" then Err UnexpectedRBracket
  else Ok (host, from hostport (i + 1)).

(** [strings.CutPrefix]. *)
Definition CutPrefix (s prefix : string) : string * bool :=
  if String.prefix prefix s
  then (from s (slen prefix), true)
  else (s, false).

(** [strconv.NumError], by its [Err]. *)
Inductive NumError : Type := ErrSyntax | ErrRange.

Definition is_digit (c : ascii) : bool :=
  let n := N_of_ascii c in ((48 <=? n) && (n <=? 57))%N.

Fixpoint digits_value (s : string) (acc : Z) : option Z :=
  match s with
  | EmptyString => Some acc
  | String c s' =>
      if is_digit c
      then digits_value s' (acc * 10 + (Z.of_N (N_of_ascii c) - 48))
      else None
  end.

(** [strconv.Atoi] for a 64-bit [int]: an optional sign, then one or more
    decimal digits; a value outside the range of [int] is [ErrRange]. *)
Definition Atoi (s : string) : result NumError Z :=
  match s with
  | EmptyString => Err ErrSyntax
  | String c rest =>
      let neg := Ascii.eqb c "-" in
      let ds := if neg || Ascii.eqb c "+" then rest else s in
      match ds with
      | EmptyString => Err ErrSyntax
      | _ =>
          match digits_value ds 0 with
          | None => Err ErrSyntax
          | Some n =>
              let v := if neg then - n else n in
              if (- 2 ^ 63 <=? v) && (v <=? 2 ^ 63 - 1) then Ok v else Err ErrRange
          end
      end
  end.

(** [net.IP] is a byte slice; [net.IPv4(a, b, c, d)] is the 16-byte form. *)
Abbreviation net_IP := (list byte).

Definition IPv4 (a b c d : byte) : net_IP :=
  repeat Byte.x00 10 ++ [Byte.xff; Byte.xff; a; b; c; d].

Definition IPv4zero : net_IP := IPv4 Byte.x00 Byte.x00 Byte.x00 Byte.x00.

(** [net.UDPAddr]. *)
Record UDPAddr : Type := { IP : net_IP; Port : Z; Zone : string }.

(** The two functions of package [net] that depend on more than their
    source text can be modelled from: [net.ParseIP] ([None] for nil) and
    [net.LookupIP] (the answer of the name service at the time of the call). *)
Class Net : Type := {
  ParseIP : string -> option net_IP;
  LookupIP : string -> result string (list net_IP);
}.

(** *** The resolver *)

(** [types.Balancer]: [Pick] ([None] for a nil IP) and [Name]. *)
Record Balancer : Type := {
  Pick : string -> list net_IP -> option net_IP;
  Name : string;
}.

(** [Resolver] (lines 15-17). *)
Record Resolver : Type := { balancer : Balancer }.

(** The errors [ResolveUDPTarget] builds with [fmt.Errorf]. *)
Inductive error : Type :=
| InvalidAddr (addr : string) (err : AddrError)
| InvalidPort (addr : string) (err : NumError)
| DNSLookupFailed (host : string) (err : option string)
| BalancerFailed (host : string).

(** The lines [ResolveUDPTarget] logs (lines 66-69 and 77). *)
Inductive logline : Type :=
| LResolved (host : string) (ips : list net_IP)
| LSelected (name addr : string) (chosen : net_IP) (port : Z).

Section WithNet.
Context `{NET : Net}.

(** [ResolveUDPTarget] (lines 29-79): the lines logged and what is returned. *)
Definition ResolveUDPTarget (r : Resolver) (addr : string)
  : list logline * result error UDPAddr :=
  if String.eqb addr "" then
    ([], Ok {| IP := IPv4zero; Port := 0; Zone := "" |})
  else
    let split : result error (string * string) :=
      match SplitHostPort addr with
      | Ok hp => Ok hp
      | Err err =>
          (* Handle addr like ":11000" *)
          let '(after, ok) := CutPrefix addr ":" in
          if ok then Ok ("", after) else Err (InvalidAddr addr err)
      | Panic msg => Panic msg
      end in
    match split with
    | Err e => ([], Err e)
    | Panic msg => ([], Panic msg)
    | Ok (host, portStr) =>
      match Atoi portStr with
      | Err err => ([], Err (InvalidPort addr err))
      | Panic msg => ([], Panic msg)
      | Ok port =>
        if String.eqb host "" then
          ([], Ok {| IP := IPv4zero; Port := port; Zone := "" |})
        else
          match ParseIP host with
          | Some ip => ([], Ok {| IP := ip; Port := port; Zone := "" |})
          | None =>
            (* FQDN case: resolve all IPs and use balancer *)
            match LookupIP host with
            | Panic msg => ([], Panic msg)
            | Err err => ([], Err (DNSLookupFailed host (Some err)))
            | Ok [] => ([], Err (DNSLookupFailed host None))
            | Ok ips =>
              (* Use the balancer to pick an IP *)
              match Pick (balancer r) host ips with
              | None => ([LResolved host ips], Err (BalancerFailed host))
              | Some chosen =>
                  ([LResolved host ips;
                    LSelected (Name (balancer r)) addr chosen port],
                   Ok {| IP := chosen; Port := port; Zone := "" |})
              end
            end
          end
      end
    end.

End WithNet.

(** No byte of [s] is a colon or a square bracket. *)
Definition plain (s : string) : Prop :=
  IndexByte s ":" < 0 /\ IndexByte s "[" < 0 /\ IndexByte s "]" < 0.

End Resolve.

(* ===================================================================== *)
(** ** A small instance: the echo service of the examples *)
(* ===================================================================== *)

Module Echo.

(** Application values are strings; the world counts the requests the
    interceptor chain has seen; a context is its incoming and its outgoing
    metadata. *)
Definition RT : Runtime := {|
  V := string;
  W := nat;
  context := MD * MD;
  Background := (∅, ∅);
  NewIncomingContext := fun ctx md => (md, ctx.2);
  FromOutgoingContext := fun ctx => ctx.2;
|}.
#[local] Existing Instance RT.

Abbreviation any := (@any RT).

Definition string_serializer : @Serializer RT := {|
  Marshal := fun a : any =>
    match a with
    | AValue v => Ok (bytes_of_string v)
    | ABytes b => Ok (elems b)
    | ANil => Err "cannot marshal nil"%string
    end;
  Unmarshal := fun b => Ok (string_of_bytes (elems b) : @V RT);
|}.

(** A codec for the empty bag only. *)
Definition empty_codec : MetadataCodec := {|
  DecodeHeaders := fun b =>
    match elems b with [] => Ok ∅ | _ => Err "bad headers"%string end;
  EncodeHeaders := fun md => Ok [];
|}.

Definition udp : @UDPTransport RT := {|
  Send := fun addr rpcID data (w : @W RT) => (Ok tt, w);
|}.

(** The chain with no element but a counter. *)
Definition counting_chain : @RPCElementChain RT := {|
  ProcessRequest := fun ctx req (w : @W RT) => (Ok req, S w);
  ProcessResponse := fun ctx resp (w : @W RT) => (Ok resp, w);
|}.

(** A chain whose element refuses every request. *)
Definition refusing_chain : @RPCElementChain RT := {|
  ProcessRequest := fun ctx req (w : @W RT) => (Err "denied"%string, S w);
  ProcessResponse := fun ctx resp (w : @W RT) => (Ok resp, w);
|}.

(** A chain whose element routes the service name "Alias" to "Echo" and
    stamps every response. *)
Definition routing_chain : @RPCElementChain RT := {|
  ProcessRequest := fun ctx req (w : @W RT) =>
    (Ok (if String.eqb (ServiceName req) "Alias"
         then {| ID := ID req; ServiceName := "Echo";
                 Method := Method req; Payload := Payload req |}
         else req), S w);
  ProcessResponse := fun ctx resp (w : @W RT) =>
    (Ok {| Result := AValue "stamped"%string; Error := Error resp |}, w);
|}.

(** A chain whose element decodes the payload itself and passes the value
    on in its place. *)
Definition decoding_chain : @RPCElementChain RT := {|
  ProcessRequest := fun ctx req (w : @W RT) =>
    (Ok {| ID := ID req; ServiceName := ServiceName req; Method := Method req;
           Payload := match Payload req with
                      | ABytes b => AValue (string_of_bytes (elems b))
                      | other => other
                      end |}, S w);
  ProcessResponse := fun ctx resp (w : @W RT) => (Ok resp, w);
|}.

(** The handler of "Say" returns what it was sent; that of "Fail" an error. *)
Definition say : @MethodHandler RT := fun srv ctx dec w =>
  match dec with
  | Ok v => (Ok (AValue v, ctx), w)
  | Err e => (Err e, w)
  | Panic msg => (Panic msg, w)
  end.

Definition fail : @MethodHandler RT := fun srv ctx dec w =>
  (Err "boom"%string, w).

Definition echo_desc : @ServiceDesc RT := {|
  ServiceImpl := AValue "echo-impl"%string;
  ServiceName' := "Echo";
  Methods := {[ "Say"%string := {| MethodName := "Say"; Handler := say |};
                "Fail"%string := {| MethodName := "Fail"; Handler := fail |} ]};
|}.

Definition new_server (chain : @RPCElementChain RT) : @Server RT := {|
  transport := udp;
  serializer := string_serializer;
  metadataCodec := empty_codec;
  services := ∅;
  rpcElementChain := chain;
|}.

Definition server (chain : @RPCElementChain RT) : @Server RT :=
  (RegisterService (new_server chain) echo_desc ANil).1.

(** The request frame for a call of [service].[method] with payload "hello"
    and no headers. *)
Definition request (service method : string) : slice :=
  match frameResponse service method [] (bytes_of_string "hello") with
  | Ok f => slice_of f
  | _ => slice_of []
  end.

(** The same frame in a receive buffer with two stale bytes behind it. *)
Definition request_in_buffer (service method : string) : slice :=
  Slice (elems (request service method) ++ [Byte.xff; Byte.xff])
        (len (request service method)).

(** The packages behind [NewServer]: binding fails on an empty address, the
    chain is the counting chain whatever the elements. *)
Definition packages : @Packages RT := {|
  RPCElement := unit;
  NewUDPTransport := fun addr =>
    if String.eqb addr "" then Err "bind: no address"%string else Ok udp;
  NewRPCElementChain := fun _ => counting_chain;
  codec := empty_codec;
|}.

(** A service name of 65536 bytes. *)
Definition long_name : string :=
  string_of_bytes (repeat Byte.x61 (Z.to_nat 65536)).

(** Header bytes, 65537 of them. *)
Definition long_headers : list byte := repeat Byte.x00 (Z.to_nat 65537).

Definition peer : string := "10.0.0.7:5000".

(** [net.ParseIP] on the two literals used below, and a name service that
    knows one name. *)
Definition literals : Resolve.Net := {|
  Resolve.ParseIP := fun s =>
    if String.eqb s "127.0.0.1"
    then Some (Resolve.IPv4 Byte.x7f Byte.x00 Byte.x00 Byte.x01)
    else if String.eqb s "::1"
    then Some (repeat Byte.x00 15 ++ [Byte.x01])
    else None;
  Resolve.LookupIP := fun s =>
    if String.eqb s "echo.local"
    then Ok [Resolve.IPv4 Byte.x0a Byte.x00 Byte.x00 Byte.x07;
             Resolve.IPv4 Byte.x0a Byte.x00 Byte.x00 Byte.x08]
    else Err "no such host"%string;
|}.

Definition first_balancer : Resolve.Balancer := {|
  Resolve.Pick := fun host ips => head ips;
  Resolve.Name := "first";
|}.

Definition resolver : Resolve.Resolver := {| Resolve.balancer := first_balancer |}.

End Echo.
(* ===================================================================== *)
(** ** Bytes and sixteen-bit prefixes *)
(* ===================================================================== *)

Lemma byte_to_Z_range (b : byte) : 0 <= byte_to_Z b < 256.
Proof.
  unfold byte_to_Z. pose proof (Byte.to_N_bounded b). lia.
Qed.

Lemma land_255 (v : Z) : Z.land v 255 = v mod 256.
Proof.
  change 255 with (Z.ones 8). rewrite Z.land_ones by lia. reflexivity.
Qed.

Lemma byte_to_Z_of_Z (v : Z) : byte_to_Z (byte_of_Z v) = v mod 256.
Proof.
  unfold byte_to_Z, byte_of_Z. rewrite land_255.
  pose proof (Z.mod_pos_bound v 256 ltac:(lia)) as Hr.
  pose proof (Byte.to_of_N_option_map (Z.to_N (v mod 256))) as Hm.
  destruct (Byte.of_N (Z.to_N (v mod 256))) as [b|] eqn:Hb; simpl in Hm.
  - destruct (N.leb_spec (Z.to_N (v mod 256)) 255) as [_|Hgt]; [|lia].
    injection Hm as ->. lia.
  - destruct (N.leb_spec (Z.to_N (v mod 256)) 255) as [_|Hgt]; [discriminate|lia].
Qed.

Lemma byte_of_to_Z (b : byte) : byte_of_Z (byte_to_Z b) = b.
Proof.
  unfold byte_of_Z. rewrite land_255.
  rewrite Z.mod_small by apply byte_to_Z_range.
  unfold byte_to_Z. rewrite N2Z.id, Byte.of_to_N. reflexivity.
Qed.

Lemma byte_of_Z_mod (v : Z) : byte_of_Z (v mod 256) = byte_of_Z v.
Proof.
  unfold byte_of_Z. rewrite !land_255, Z.mod_mod by lia. reflexivity.
Qed.

Lemma lor_shiftl8 (a b : Z) :
  0 <= a < 256 -> 0 <= b -> Z.lor a (Z.shiftl b 8) = a + 256 * b.
Proof.
  intros Ha Hb.
  assert (Hl : Z.land a (Z.shiftl b 8) = 0).
  { apply Z.bits_inj'. intros i Hi. rewrite Z.land_spec, Z.bits_0.
    destruct (Z.lt_ge_cases i 8) as [Hlt|Hge].
    - rewrite (Z.shiftl_spec_low b 8 i) by lia. apply andb_false_r.
    - replace a with (a mod 2 ^ 8) by (apply Z.mod_small; lia).
      rewrite Z.mod_pow2_bits_high by lia. reflexivity. }
  rewrite <- Z.lxor_lor by exact Hl.
  rewrite <- Z.add_nocarry_lxor by exact Hl.
  rewrite Z.shiftl_mul_pow2 by lia. lia.
Qed.

Lemma uint16_range (n : Z) : 0 <= uint16 n < 65536.
Proof. unfold uint16. apply Z.mod_pos_bound. lia. Qed.

Lemma uint16_small (n : Z) : 0 <= n <= 65535 -> uint16 n = n.
Proof. intros. unfold uint16. apply Z.mod_small. lia. Qed.

(** Reading back the two bytes written for [v] gives [v]. *)
Lemma Uint16_PutUint16 {E} (b : slice) (v : Z) (rest : list byte) :
  0 <= v < 65536 -> elems b = PutUint16 v ++ rest -> @Uint16 E b = Ok v.
Proof.
  intros Hv He. unfold Uint16. rewrite He. simpl. f_equal.
  rewrite !byte_to_Z_of_Z, Z.shiftr_div_pow2 by lia.
  rewrite lor_shiftl8 by (try apply Z.mod_pos_bound; lia).
  change (2 ^ 8) with 256.
  rewrite (Z.mod_small (v / 256) 256)
    by (split; [apply Z.div_pos; lia | apply Z.div_lt_upper_bound; lia]).
  pose proof (Z.div_mod v 256 ltac:(lia)). lia.
Qed.

(** Whatever two bytes are read, the value fits sixteen bits. *)
Lemma Uint16_range {E} (b : slice) (v : Z) : @Uint16 E b = Ok v -> 0 <= v < 65536.
Proof.
  unfold Uint16. destruct (elems b) as [|b0 [|b1 l]]; try discriminate.
  intros [= <-].
  pose proof (byte_to_Z_range b0). pose proof (byte_to_Z_range b1).
  rewrite lor_shiftl8 by lia. lia.
Qed.

(** The two bytes read are the two bytes that writing the value gives. *)
Lemma Uint16_inv {E} (b : slice) (n : Z) :
  @Uint16 E b = Ok n -> exists rest, elems b = PutUint16 n ++ rest.
Proof.
  unfold Uint16. destruct (elems b) as [|x [|y rest]]; try discriminate.
  intros [= <-]. exists rest. unfold PutUint16. simpl.
  pose proof (byte_to_Z_range x). pose proof (byte_to_Z_range y).
  rewrite lor_shiftl8 by lia. f_equal; [|f_equal].
  - rewrite <- byte_of_Z_mod.
    replace ((byte_to_Z x + 256 * byte_to_Z y) mod 256) with (byte_to_Z x).
    + symmetry. apply byte_of_to_Z.
    + apply (Z.mod_unique_pos _ 256 (byte_to_Z y)); lia.
  - rewrite Z.shiftr_div_pow2 by lia. change (2 ^ 8) with 256.
    replace ((byte_to_Z x + 256 * byte_to_Z y) / 256) with (byte_to_Z y).
    + symmetry. apply byte_of_to_Z.
    + apply (Z.div_unique_pos _ 256 (byte_to_Z y) (byte_to_Z x)); lia.
Qed.

Lemma Uint16_short {E} (b : slice) : (length (elems b) < 2)%nat ->
  @Uint16 E b = Panic "index out of range".
Proof.
  unfold Uint16. destruct (elems b) as [|b0 [|b1 l]]; simpl; intros; try reflexivity; lia.
Qed.

(* ===================================================================== *)
(** ** Slices *)
(* ===================================================================== *)

Lemma length_elems (s : slice) : slice_wf s -> length (elems s) = len s.
Proof. unfold slice_wf, cap, elems. intros. rewrite length_firstn. lia. Qed.

Lemma arr_elems (s : slice) : arr s = elems s ++ skipn (len s) (arr s).
Proof. unfold elems. symmetry. apply firstn_skipn. Qed.

Lemma slice_of_wf (b : list byte) : slice_wf (slice_of b).
Proof. unfold slice_wf, cap, slice_of. simpl. lia. Qed.

Lemma elems_slice_of (b : list byte) : elems (slice_of b) = b.
Proof. unfold elems, slice_of. simpl. apply firstn_all. Qed.

(** [s[lo:hi]] inside the shown elements: the middle part. *)
Lemma reslice_elems {E} (s : slice) (a b c : list byte) (lo hi : Z) :
  slice_wf s -> elems s = a ++ b ++ c ->
  lo = Z.of_nat (length a) -> hi = lo + Z.of_nat (length b) ->
  exists s', @reslice E s lo hi = Ok s' /\ elems s' = b /\ slice_wf s'.
Proof.
  intros Hwf He -> ->. unfold reslice.
  pose proof (length_elems s Hwf) as Hlen. rewrite He, !length_app in Hlen.
  unfold slice_wf in Hwf.
  destruct ((0 <=? Z.of_nat (length a)) &&
            (Z.of_nat (length a) <=? Z.of_nat (length a) + Z.of_nat (length b)) &&
            (Z.of_nat (length a) + Z.of_nat (length b) <=? Z.of_nat (cap s))) eqn:Hc.
  2:{ rewrite !andb_false_iff, !Z.leb_gt in Hc. lia. }
  eexists. split; [reflexivity|].
  rewrite Nat2Z.id.
  replace (Z.to_nat (Z.of_nat (length a) + Z.of_nat (length b) - Z.of_nat (length a)))
    with (length b) by lia.
  assert (Hsk : skipn (length a) (arr s) = b ++ c ++ skipn (len s) (arr s)).
  { rewrite (arr_elems s) at 1. rewrite He, <- !app_assoc.
    rewrite skipn_app, skipn_all, Nat.sub_diag. reflexivity. }
  split.
  - unfold elems. simpl. rewrite Hsk, firstn_app, firstn_all, Nat.sub_diag.
    simpl. apply app_nil_r.
  - unfold slice_wf, cap. simpl. rewrite Hsk, length_app. lia.
Qed.

(** [s[lo:]] inside the shown elements: what is left of them. *)
Lemma slice_from_elems {E} (s : slice) (a c : list byte) (lo : Z) :
  slice_wf s -> elems s = a ++ c -> lo = Z.of_nat (length a) ->
  exists s', @slice_from E s lo = Ok s' /\ elems s' = c /\ slice_wf s'.
Proof.
  intros Hwf He ->. unfold slice_from.
  apply (reslice_elems s a c []); auto.
  - rewrite app_nil_r. exact He.
  - pose proof (length_elems s Hwf) as Hlen. rewrite He, length_app in Hlen. lia.
Qed.

(** A slice expression that does not panic gives a slice of the length asked for. *)
Lemma reslice_len {E} (s s' : slice) (lo hi : Z) :
  @reslice E s lo hi = Ok s' -> length (elems s') = Z.to_nat (hi - lo) /\ 0 <= lo <= hi.
Proof.
  unfold reslice.
  destruct ((0 <=? lo) && (lo <=? hi) && (hi <=? Z.of_nat (cap s))) eqn:Hc; [|discriminate].
  rewrite !andb_true_iff, !Z.leb_le in Hc. intros [= <-].
  unfold elems, cap in *. simpl. rewrite length_firstn, length_skipn. lia.
Qed.

Lemma slice_from_inv {E} (s b : slice) (off : Z) :
  slice_wf s -> @slice_from E s off = Ok b ->
  0 <= off <= Z.of_nat (len s) /\ elems b = skipn (Z.to_nat off) (elems s).
Proof.
  unfold slice_from, reslice, slice_wf. intros Hwf.
  destruct ((0 <=? off) && (off <=? Z.of_nat (len s)) &&
            (Z.of_nat (len s) <=? Z.of_nat (cap s))) eqn:Hc; [|discriminate].
  rewrite !andb_true_iff, !Z.leb_le in Hc. intros [= <-].
  split; [lia|]. unfold elems. simpl. rewrite skipn_firstn_comm.
  f_equal. lia.
Qed.

Lemma reslice_inv {E} (s sv : slice) (lo hi : Z) :
  @reslice E s lo hi = Ok sv -> hi <= Z.of_nat (len s) ->
  elems sv = firstn (Z.to_nat (hi - lo)) (skipn (Z.to_nat lo) (elems s)).
Proof.
  unfold reslice.
  destruct ((0 <=? lo) && (lo <=? hi) && (hi <=? Z.of_nat (cap s))) eqn:Hc; [|discriminate].
  rewrite !andb_true_iff, !Z.leb_le in Hc. intros [= <-] Hhi.
  unfold elems. simpl. rewrite skipn_firstn_comm, firstn_firstn.
  f_equal. lia.
Qed.

(* ===================================================================== *)
(** ** The frame codec *)
(* ===================================================================== *)

Lemma length_bytes_of_string (s : string) :
  length (bytes_of_string s) = String.length s.
Proof.
  unfold bytes_of_string, list_byte_of_string. rewrite length_map.
  induction s as [|c s IH]; simpl; congruence.
Qed.

Lemma length_string_of_bytes (b : list byte) :
  String.length (string_of_bytes b) = length b.
Proof.
  unfold string_of_bytes, string_of_list_byte.
  induction b as [|c b IH]; simpl; congruence.
Qed.

Lemma string_of_bytes_of_string (s : string) :
  string_of_bytes (bytes_of_string s) = s.
Proof. apply string_of_list_byte_of_string. Qed.

Lemma bind_Ok {E A B} (a : A) (k : A -> result E B) : (Ok a ≫= k) = k a.
Proof. reflexivity. Qed.

Lemma bind_Ok_inv {E A B} (r : result E A) (k : A -> result E B) (b : B) :
  (r ≫= k) = Ok b -> exists a, r = Ok a /\ k a = Ok b.
Proof. destruct r; simpl; intros; try discriminate. eauto. Qed.

(** Reading one length-prefixed field at offset [off]. *)
Lemma read_field (data : slice) (pre body rest : list byte) (off : Z) :
  slice_wf data ->
  elems data = pre ++ PutUint16 (Z.of_nat (length body)) ++ body ++ rest ->
  off = Z.of_nat (length pre) -> Z.of_nat (length body) <= 65535 ->
  exists b sv,
    @slice_from frame_error data off = Ok b /\
    @Uint16 frame_error b = Ok (Z.of_nat (length body)) /\
    @reslice frame_error data (off + 2) (off + 2 + Z.of_nat (length body)) = Ok sv /\
    elems sv = body.
Proof.
  intros Hwf He Hoff Hlen.
  destruct (slice_from_elems (E:=frame_error) data pre _ off Hwf He Hoff)
    as (b & Hb & Heb & _).
  destruct (reslice_elems (E:=frame_error) data
              (pre ++ PutUint16 (Z.of_nat (length body))) body rest
              (off + 2) (off + 2 + Z.of_nat (length body)) Hwf)
    as (sv & Hsv & Hesv & _).
  - rewrite <- app_assoc. exact He.
  - rewrite length_app. simpl length. lia.
  - reflexivity.
  - exists b, sv. repeat split; auto.
    apply Uint16_PutUint16 with (rest := body ++ rest); [lia | exact Heb].
Qed.

(** What reading one length-prefixed field at [off] says about the bytes
    from [off] on. *)
Lemma read_field_inv (d b sv b' : slice) (off n : Z) :
  slice_wf d ->
  @slice_from frame_error d off = Ok b -> @Uint16 frame_error b = Ok n ->
  @reslice frame_error d (off + 2) (off + 2 + n) = Ok sv ->
  @slice_from frame_error d (off + 2 + n) = Ok b' ->
  elems b = PutUint16 n ++ elems sv ++ elems b' /\
  Z.of_nat (length (elems sv)) = n /\ 0 <= n < 65536.
Proof.
  intros Hwf Hb Hn Hsv Hb'.
  apply (slice_from_inv d b off Hwf) in Hb as [Hoff Heb].
  apply (slice_from_inv d b' _ Hwf) in Hb' as [Hoff' Heb'].
  pose proof (Uint16_range b n Hn) as Hr.
  pose proof (reslice_len d sv _ _ Hsv) as [Hlen _].
  apply reslice_inv in Hsv; [|lia].
  apply Uint16_inv in Hn as [rest Hrest].
  assert (Hrest' : rest = skipn (Z.to_nat (off + 2)) (elems d)).
  { replace (Z.to_nat (off + 2)) with (2 + Z.to_nat off)%nat by lia.
    rewrite <- skipn_skipn, <- Heb, Hrest. reflexivity. }
  split; [|split; [lia | exact Hr]].
  rewrite Hrest. f_equal. rewrite Hsv, Heb', Hrest'.
  replace (Z.to_nat (off + 2 + n)) with (Z.to_nat (off + 2 + n - (off + 2)) + Z.to_nat (off + 2))%nat by lia.
  rewrite <- skipn_skipn. symmetry. apply firstn_skipn.
Qed.

(** [parseFramedRequest] has no path that returns an error. *)
Lemma parse_never_errs (data : slice) (e : frame_error) :
  parseFramedRequest data <> Err e.
Proof.
  unfold parseFramedRequest, slice_from, reslice, Uint16.
  repeat match goal with
  | |- context [if ?c then _ else _] => destruct c
  | |- context [match ?l with [] => _ | _ :: _ => _ end] => destruct l
  | |- _ => progress simpl
  end; discriminate.
Qed.

(** On fewer than two bytes the first read of a length panics. *)
Lemma parse_short_panics (data : slice) :
  slice_wf data -> (len data < 2)%nat ->
  exists msg, parseFramedRequest data = Panic msg.
Proof.
  intros Hwf Hlen. unfold parseFramedRequest.
  destruct (slice_from_elems (E:=frame_error) data [] (elems data) 0 Hwf eq_refl eq_refl)
    as (b & -> & Heb & _).
  rewrite bind_Ok, (Uint16_short b).
  - eexists. reflexivity.
  - rewrite Heb, length_elems by exact Hwf. exact Hlen.
Qed.

(** What a successful parse says about its results: the names are shorter
    than 2^16 bytes. *)
Lemma parse_Ok_lengths (data : slice) (s m : string) (hs ps : slice) :
  parseFramedRequest data = Ok (s, m, hs, ps) ->
  exists b, @slice_from frame_error data 0 = Ok b /\
            @Uint16 frame_error b = Ok (slen s) /\
            slen s < 65536 /\ slen m < 65536.
Proof.
  unfold parseFramedRequest. intros H.
  apply bind_Ok_inv in H as (b1 & Hb1 & H).
  apply bind_Ok_inv in H as (n1 & Hn1 & H).
  apply bind_Ok_inv in H as (sv & Hsv & H).
  apply bind_Ok_inv in H as (b2 & Hb2 & H).
  apply bind_Ok_inv in H as (n2 & Hn2 & H).
  apply bind_Ok_inv in H as (mt & Hmt & H).
  apply bind_Ok_inv in H as (b3 & Hb3 & H).
  apply bind_Ok_inv in H as (n3 & Hn3 & H).
  apply bind_Ok_inv in H as (hd & Hhd & H).
  apply bind_Ok_inv in H as (pl & Hpl & H).
  injection H as <- <- <- <-.
  apply Uint16_range in Hn1 as Hr1. apply Uint16_range in Hn2 as Hr2.
  apply reslice_len in Hsv as [Hl1 _]. apply reslice_len in Hmt as [Hl2 _].
  assert (Hs : slen (string_of_bytes (elems sv)) = n1).
  { unfold slen. rewrite length_string_of_bytes, Hl1. lia. }
  assert (Hm : slen (string_of_bytes (elems mt)) = n2).
  { unfold slen. rewrite length_string_of_bytes, Hl2. lia. }
  exists b1. rewrite Hs, Hm. repeat split; auto; lia.
Qed.

(** The frame of a call of Echo.Say with one header byte and the payload
    "hi", and what parsing it gives: the headers slice has length 1 and the
    payload behind it as spare capacity. *)
Example frame_ex :
  frameResponse "Echo" "Say" [Byte.x01] [Byte.x68; Byte.x69]
  = Ok ([Byte.x04; Byte.x00] ++ bytes_of_string "Echo" ++
        [Byte.x03; Byte.x00] ++ bytes_of_string "Say" ++
        [Byte.x01; Byte.x00; Byte.x01; Byte.x68; Byte.x69]).
Proof. reflexivity. Qed.

Example parse_ex :
  parseFramedRequest (slice_of ([Byte.x04; Byte.x00] ++ bytes_of_string "Echo" ++
        [Byte.x03; Byte.x00] ++ bytes_of_string "Say" ++
        [Byte.x01; Byte.x00; Byte.x01; Byte.x68; Byte.x69]))
  = Ok ("Echo"%string, "Say"%string, Slice [Byte.x01; Byte.x68; Byte.x69] 1,
        Slice [Byte.x68; Byte.x69] 2).
Proof. reflexivity. Qed.

Arguments PutUint16 : simpl never.

(** C1. Frame round-trip: for names and headers of at most 65535 bytes,
    [frameResponse] returns a frame, and [parseFramedRequest] on any slice
    showing that frame returns the same service and method names, a headers
    slice showing the same header bytes and a payload slice showing the same
    payload bytes. *)
Theorem frame_round_trip (s m : string) (h p : list byte) :
  slen s <= 65535 -> slen m <= 65535 -> Z.of_nat (length h) <= 65535 ->
  exists f, frameResponse s m h p = Ok f /\
    forall d, slice_wf d -> elems d = f ->
      exists hs ps, parseFramedRequest d = Ok (s, m, hs, ps) /\
                    elems hs = h /\ elems ps = p.
Proof.
  intros Hs Hm Hh. unfold frameResponse. eexists. split; [reflexivity|].
  intros d Hwf He. rewrite app_nil_l, <- !app_assoc in He.
  unfold slen in *. rewrite !uint16_small in He by lia.
  rewrite <- (length_bytes_of_string s), <- (length_bytes_of_string m) in *.
  destruct (read_field d [] (bytes_of_string s) _ 0 Hwf He eq_refl ltac:(lia))
    as (b1 & sv & Hb1 & Hn1 & Hsv & Hesv).
  rewrite (app_assoc (PutUint16 _) (bytes_of_string s)) in He.
  destruct (read_field d _ (bytes_of_string m) _
              (0 + 2 + Z.of_nat (length (bytes_of_string s))) Hwf He)
    as (b2 & mt & Hb2 & Hn2 & Hmt & Hemt);
    [rewrite length_app; simpl; lia | lia |].
  rewrite (app_assoc (PutUint16 _ ++ bytes_of_string s)
                     (PutUint16 _) (bytes_of_string m ++ _)) in He.
  rewrite (app_assoc ((PutUint16 _ ++ bytes_of_string s) ++ PutUint16 _)
                     (bytes_of_string m)) in He.
  destruct (read_field d _ h p
              (0 + 2 + Z.of_nat (length (bytes_of_string s)) + 2 +
               Z.of_nat (length (bytes_of_string m))) Hwf He)
    as (b3 & hd & Hb3 & Hn3 & Hhd & Hehd);
    [rewrite !length_app; simpl; lia | lia |].
  rewrite (app_assoc _ (PutUint16 _) (h ++ p)), (app_assoc _ h p) in He.
  destruct (slice_from_elems (E:=frame_error) d _ p
              (0 + 2 + Z.of_nat (length (bytes_of_string s)) + 2 +
               Z.of_nat (length (bytes_of_string m)) + 2 + Z.of_nat (length h)) Hwf He)
    as (pl & Hpl & Hepl & _);
    [rewrite !length_app; simpl; lia |].
  exists hd, pl. split; [|auto].
  unfold parseFramedRequest.
  rewrite Hb1, bind_Ok, Hn1, bind_Ok, Hsv, bind_Ok.
  rewrite Hb2, bind_Ok, Hn2, bind_Ok, Hmt, bind_Ok.
  rewrite Hb3, bind_Ok, Hn3, bind_Ok, Hhd, bind_Ok.
  rewrite Hpl, bind_Ok, Hesv, Hemt, !string_of_bytes_of_string. reflexivity.
Qed.

Lemma frame_round_trip_witness :
  exists f, frameResponse "Echo" "Say" [Byte.x01] [Byte.x68; Byte.x69] = Ok f /\
    forall d, slice_wf d -> elems d = f ->
      exists hs ps, parseFramedRequest d = Ok ("Echo"%string, "Say"%string, hs, ps) /\
                    elems hs = [Byte.x01] /\ elems ps = [Byte.x68; Byte.x69].
Proof.
  apply (frame_round_trip "Echo" "Say" [Byte.x01] [Byte.x68; Byte.x69]);
    vm_compute; discriminate.
Defined.

(** C9. For a service or method name longer than 65535 bytes [frameResponse]
    still returns a frame; the frame starts with the service length modulo
    2^16, which is not the length of the name that follows, and carries the
    method length modulo 2^16 after the service name; and no slice showing
    the frame parses back to the names that were framed. *)
Theorem long_name_frame_does_not_round_trip (s m : string) (h p : list byte) :
  65535 < slen s \/ 65535 < slen m ->
  exists rest,
    frameResponse s m h p
    = Ok (PutUint16 (slen s mod 2 ^ 16) ++ bytes_of_string s ++
          PutUint16 (slen m mod 2 ^ 16) ++ bytes_of_string m ++ rest) /\
    (slen s mod 2 ^ 16 <> slen s \/ slen m mod 2 ^ 16 <> slen m) /\
    forall d f, frameResponse s m h p = Ok f -> elems d = f ->
      forall hs ps, parseFramedRequest d <> Ok (s, m, hs, ps).
Proof.
  intros Hlong. eexists. split; [|split].
  - unfold frameResponse. simpl. rewrite <- !app_assoc. reflexivity.
  - pose proof (Z.mod_pos_bound (slen s) (2 ^ 16) ltac:(lia)).
    pose proof (Z.mod_pos_bound (slen m) (2 ^ 16) ltac:(lia)).
    destruct Hlong; [left | right]; lia.
  - intros d f _ _ hs ps Hp.
    apply parse_Ok_lengths in Hp as (b & _ & _ & Hs & Hm). lia.
Qed.

Lemma bytes_of_string_of_bytes (b : list byte) :
  bytes_of_string (string_of_bytes b) = b.
Proof. apply list_byte_of_string_of_list_byte. Qed.

(** Parsing is exact: framing the names, the header bytes and the payload
    bytes that a parse returned gives back the bytes that were parsed. *)
Theorem parse_then_frame (d : slice) (s m : string) (hs ps : slice) :
  slice_wf d -> parseFramedRequest d = Ok (s, m, hs, ps) ->
  frameResponse s m (elems hs) (elems ps) = Ok (elems d).
Proof.
  intros Hwf H. unfold parseFramedRequest in H.
  apply bind_Ok_inv in H as (b1 & Hb1 & H).
  apply bind_Ok_inv in H as (n1 & Hn1 & H).
  apply bind_Ok_inv in H as (sv & Hsv & H).
  apply bind_Ok_inv in H as (b2 & Hb2 & H).
  apply bind_Ok_inv in H as (n2 & Hn2 & H).
  apply bind_Ok_inv in H as (mt & Hmt & H).
  apply bind_Ok_inv in H as (b3 & Hb3 & H).
  apply bind_Ok_inv in H as (n3 & Hn3 & H).
  apply bind_Ok_inv in H as (hd & Hhd & H).
  apply bind_Ok_inv in H as (pl & Hpl & H).
  injection H as <- <- <- <-.
  destruct (read_field_inv d b1 sv b2 _ _ Hwf Hb1 Hn1 Hsv Hb2) as (E1 & L1 & R1).
  destruct (read_field_inv d b2 mt b3 _ _ Hwf Hb2 Hn2 Hmt Hb3) as (E2 & L2 & R2).
  destruct (read_field_inv d b3 hd pl _ _ Hwf Hb3 Hn3 Hhd Hpl) as (E3 & L3 & R3).
  apply (slice_from_inv d b1 0 Hwf) in Hb1 as [_ E0].
  change (elems b1 = elems d) in E0.
  unfold frameResponse. f_equal. rewrite app_nil_l, <- !app_assoc.
  unfold slen. rewrite !length_string_of_bytes, !bytes_of_string_of_bytes.
  rewrite L1, L2, L3, !uint16_small by lia.
  rewrite <- E3, <- E2, <- E1. exact E0.
Qed.

Lemma parse_then_frame_witness :
  frameResponse "Echo" "Say" (elems (Slice [Byte.x01; Byte.x68; Byte.x69] 1))
    (elems (Slice [Byte.x68; Byte.x69] 2))
  = Ok (elems (slice_of ([Byte.x04; Byte.x00] ++ bytes_of_string "Echo" ++
        [Byte.x03; Byte.x00] ++ bytes_of_string "Say" ++
        [Byte.x01; Byte.x00; Byte.x01; Byte.x68; Byte.x69]))).
Proof.
  apply parse_then_frame; [apply slice_of_wf | reflexivity].
Defined.




(** Parsing a buffer that shows three length-prefixed fields and a rest. *)
Lemma parse_of_fields (d : slice) (S M H P : list byte) :
  slice_wf d ->
  Z.of_nat (length S) <= 65535 -> Z.of_nat (length M) <= 65535 ->
  Z.of_nat (length H) <= 65535 ->
  elems d = PutUint16 (Z.of_nat (length S)) ++ S ++
            PutUint16 (Z.of_nat (length M)) ++ M ++
            PutUint16 (Z.of_nat (length H)) ++ H ++ P ->
  exists hs ps,
    parseFramedRequest d = Ok (string_of_bytes S, string_of_bytes M, hs, ps) /\
    elems hs = H /\ elems ps = P.
Proof.
  intros Hwf HS HM HH He.
  destruct (read_field d [] S _ 0 Hwf He eq_refl HS)
    as (b1 & sv & Hb1 & Hn1 & Hsv & Hesv).
  rewrite (app_assoc (PutUint16 _) S) in He.
  destruct (read_field d _ M _ (0 + 2 + Z.of_nat (length S)) Hwf He)
    as (b2 & mt & Hb2 & Hn2 & Hmt & Hemt);
    [rewrite length_app; simpl; lia | lia |].
  rewrite (app_assoc (PutUint16 _ ++ S) (PutUint16 _) (M ++ _)) in He.
  rewrite (app_assoc ((PutUint16 _ ++ S) ++ PutUint16 _) M) in He.
  destruct (read_field d _ H P
              (0 + 2 + Z.of_nat (length S) + 2 + Z.of_nat (length M)) Hwf He)
    as (b3 & hd & Hb3 & Hn3 & Hhd & Hehd);
    [rewrite !length_app; simpl; lia | lia |].
  rewrite (app_assoc _ (PutUint16 _) (H ++ P)), (app_assoc _ H P) in He.
  destruct (slice_from_elems (E:=frame_error) d _ P
              (0 + 2 + Z.of_nat (length S) + 2 + Z.of_nat (length M) + 2 +
               Z.of_nat (length H)) Hwf He)
    as (pl & Hpl & Hepl & _);
    [rewrite !length_app; simpl; lia |].
  exists hd, pl. split; [|auto].
  unfold parseFramedRequest.
  rewrite Hb1, bind_Ok, Hn1, bind_Ok, Hsv, bind_Ok.
  rewrite Hb2, bind_Ok, Hn2, bind_Ok, Hmt, bind_Ok.
  rewrite Hb3, bind_Ok, Hn3, bind_Ok, Hhd, bind_Ok.
  rewrite Hpl, bind_Ok, Hesv, Hemt. reflexivity.
Qed.

(** What a buffer that parses shows: the three fields and the payload. *)
Lemma parse_fields_inv (d : slice) (s m : string) (hs ps : slice) :
  slice_wf d -> parseFramedRequest d = Ok (s, m, hs, ps) ->
  exists S M,
    s = string_of_bytes S /\ m = string_of_bytes M /\
    Z.of_nat (length S) <= 65535 /\ Z.of_nat (length M) <= 65535 /\
    Z.of_nat (length (elems hs)) <= 65535 /\
    elems d = PutUint16 (Z.of_nat (length S)) ++ S ++
              PutUint16 (Z.of_nat (length M)) ++ M ++
              PutUint16 (Z.of_nat (length (elems hs))) ++ elems hs ++ elems ps.
Proof.
  intros Hwf H. unfold parseFramedRequest in H.
  apply bind_Ok_inv in H as (b1 & Hb1 & H).
  apply bind_Ok_inv in H as (n1 & Hn1 & H).
  apply bind_Ok_inv in H as (sv & Hsv & H).
  apply bind_Ok_inv in H as (b2 & Hb2 & H).
  apply bind_Ok_inv in H as (n2 & Hn2 & H).
  apply bind_Ok_inv in H as (mt & Hmt & H).
  apply bind_Ok_inv in H as (b3 & Hb3 & H).
  apply bind_Ok_inv in H as (n3 & Hn3 & H).
  apply bind_Ok_inv in H as (hd & Hhd & H).
  apply bind_Ok_inv in H as (pl & Hpl & H).
  injection H as <- <- <- <-.
  destruct (read_field_inv d b1 sv b2 _ _ Hwf Hb1 Hn1 Hsv Hb2) as (E1 & L1 & R1).
  destruct (read_field_inv d b2 mt b3 _ _ Hwf Hb2 Hn2 Hmt Hb3) as (E2 & L2 & R2).
  destruct (read_field_inv d b3 hd pl _ _ Hwf Hb3 Hn3 Hhd Hpl) as (E3 & L3 & R3).
  apply (slice_from_inv d b1 0 Hwf) in Hb1 as [_ E0].
  change (elems b1 = elems d) in E0.
  exists (elems sv), (elems mt). repeat split; try lia.
  rewrite L1, L2, L3, <- E3, <- E2, <- E1. symmetry. exact E0.
Qed.

Lemma parse_same_elems (d1 d2 : slice) (s m : string) (h1 p1 : slice) :
  slice_wf d1 -> slice_wf d2 -> elems d1 = elems d2 ->
  parseFramedRequest d1 = Ok (s, m, h1, p1) ->
  exists h2 p2, parseFramedRequest d2 = Ok (s, m, h2, p2) /\
                elems h2 = elems h1 /\ elems p2 = elems p1.
Proof.
  intros Hwf1 Hwf2 He Hp.
  destruct (parse_fields_inv d1 s m h1 p1 Hwf1 Hp)
    as (S & M & -> & -> & HS & HM & HH & Hd).
  rewrite He in Hd.
  exact (parse_of_fields d2 S M (elems h1) (elems p1) Hwf2 HS HM HH Hd).
Qed.

(** Two buffers that show the same bytes parse alike, whatever lies in their
    spare capacity: both panic, or both return the same names and slices
    showing the same header and payload bytes. *)
Theorem parse_ignores_capacity (d1 d2 : slice) :
  slice_wf d1 -> slice_wf d2 -> elems d1 = elems d2 ->
  match parseFramedRequest d1, parseFramedRequest d2 with
  | Ok (s1, m1, h1, p1), Ok (s2, m2, h2, p2) =>
      s1 = s2 /\ m1 = m2 /\ elems h1 = elems h2 /\ elems p1 = elems p2
  | Panic _, Panic _ => True
  | _, _ => False
  end.
Proof.
  intros Hwf1 Hwf2 He.
  destruct (parseFramedRequest d1) as [[[[s1 m1] h1] p1]|e|msg] eqn:H1.
  - destruct (parse_same_elems d1 d2 s1 m1 h1 p1 Hwf1 Hwf2 He H1)
      as (h2 & p2 & -> & Hh & Hp). auto.
  - exact (parse_never_errs d1 e H1).
  - destruct (parseFramedRequest d2) as [[[[s2 m2] h2] p2]|e|msg2] eqn:H2.
    + destruct (parse_same_elems d2 d1 s2 m2 h2 p2 Hwf2 Hwf1 (eq_sym He) H2)
        as (h1 & p1 & H1' & _). congruence.
    + exact (parse_never_errs d2 e H2).
    + exact I.
Qed.

(** Headers longer than 65535 bytes: the length prefix holds their length
    modulo 2^16, so a parse of the frame returns the names, that many of the
    header bytes as headers, and the other header bytes in front of the
    payload. *)
Theorem long_headers_spill_into_payload (s m : string) (h p : list byte) :
  slen s <= 65535 -> slen m <= 65535 -> 65535 < Z.of_nat (length h) ->
  exists f, frameResponse s m h p = Ok f /\
    forall d, slice_wf d -> elems d = f ->
      exists hs ps,
        parseFramedRequest d = Ok (s, m, hs, ps) /\
        elems hs = firstn (Z.to_nat (Z.of_nat (length h) mod 2 ^ 16)) h /\
        elems ps = skipn (Z.to_nat (Z.of_nat (length h) mod 2 ^ 16)) h ++ p /\
        elems hs <> h.
Proof.
  intros Hs Hm Hh. unfold frameResponse. eexists. split; [reflexivity|].
  intros d Hwf He. rewrite app_nil_l, <- !app_assoc in He.
  unfold slen in *. rewrite !uint16_small in He by lia.
  pose proof (Z.mod_pos_bound (Z.of_nat (length h)) (2 ^ 16) ltac:(lia)) as Hk.
  set (k := Z.to_nat (Z.of_nat (length h) mod 2 ^ 16)) in *.
  assert (Hlen : length (firstn k h) = k) by (rewrite length_firstn; lia).
  assert (Hpre : uint16 (Z.of_nat (length h)) = Z.of_nat (length (firstn k h))).
  { rewrite Hlen. unfold uint16, k. lia. }
  rewrite Hpre in He.
  rewrite <- (firstn_skipn k h) in He at 2. rewrite <- app_assoc in He.
  rewrite <- (length_bytes_of_string s), <- (length_bytes_of_string m) in *.
  destruct (parse_of_fields d (bytes_of_string s) (bytes_of_string m)
              (firstn k h) (skipn k h ++ p) Hwf) as (hs & ps & Hp & Hhs & Hps);
    [lia | lia | lia | exact He |].
  rewrite !string_of_bytes_of_string in Hp.
  exists hs, ps. repeat split; auto.
  rewrite Hhs. intros E. apply (f_equal (@length byte)) in E. lia.
Qed.

(* ===================================================================== *)
(** ** The dispatcher *)
(* ===================================================================== *)

Section DispatcherFacts.
Context `{RT : Runtime}.

(** Splitting a turn of the loop into the paths through its body. *)
Ltac unfold_turn :=
  unfold events, loop_body, step, call, lookup_or, log, continue,
         mbind, M_bind in *.

Ltac turn_paths :=
  unfold_turn;
  repeat (case_match; simplify_eq/=); simpl in *.

Ltac find_in :=
  simpl; repeat (first [left; reflexivity | right]).

Ltac absurd_in :=
  repeat match goal with
  | H : _ \/ _ |- _ => destruct H
  | H : False |- _ => destruct H
  | H : @eq event _ _ |- _ =>
      first [discriminate H | injection H; clear H; intros; subst]
  end.

(** C3 (amended). In every turn of the loop the stages run in the order of
    the loop body: parse the frame, run the request interceptor chain, look
    up the service and the method, decode the headers, invoke the handler,
    run the response chain, marshal, send.  The stages of a turn are an
    initial part of that list.  A turn that invokes the handler has done
    exactly this before: parsed the frame, given the parsed request to the
    chain under the background context, found the service and the method
    named by the request the chain returned, and decoded the headers; the
    handler gets the fresh incoming context made of them. *)
Theorem stages_in_code_order (s : Server) (r : received) (w : W) :
  stages (events s r w) `prefix_of` code_stages /\
  follows code_rank (stages (events s r w)) /\
  forall service method srv ctx payload out,
    In (EHandler service method srv ctx payload out) (events s r w) ->
    exists data addr rpcID sv mt hs ps req' d md rest,
      r = RecvData data addr rpcID /\
      services s !! ServiceName req' = Some d /\
      events s r w =
        [EParse data (Ok (sv, mt, hs, ps));
         EProcessRequest Background
           {| ID := rpcID; ServiceName := sv; Method := mt; Payload := ABytes ps |}
           (Ok req');
         ELookupService (ServiceName req') true;
         ELookupMethod (ServiceName req') (Method req') true;
         EDecodeHeaders hs (Ok md);
         ELog (LReceivedHeaders (ServiceName req') (Method req') md);
         EHandler (ServiceName req') (Method req') (ServiceImpl d)
           (NewIncomingContext Background md) (Payload req') out] ++ rest.
Proof.
  unfold follows, code_stages. destruct r; turn_paths;
    (split; [eexists; reflexivity |
     split; [repeat constructor; simpl; lia |]]);
    intros service method srv ctx payload out Hin; simpl in Hin; absurd_in;
    repeat eexists; eauto.
Qed.

(** Every turn ends by falling through or by [continue], or panics; the
    loop goes on with the same server unless it panicked. *)
Lemma serve_cons (s : Server) (r : received) (rest : list received) (w : W) :
  serve s (r :: rest) w =
  match loop_body s r w with
  | (e1, w1, Crash msg) => (e1, w1, Panicked msg)
  | (e1, w1, _) => let '(e2, w2, st) := serve s rest w1 in (e1 ++ e2, w2, st)
  end.
Proof. reflexivity. Qed.

(** C4 (amended). When a turn gets as far as encoding the response headers,
    then: the request chain was given the parsed frame under the background
    context and returned a request [req']; the handler registered under the
    names of [req'] returned [resp] and [ctx']; the response chain was given
    [resp] under [ctx'] and returned [resp']; the result of [resp'] was
    marshalled; the headers encoded are the outgoing metadata of [ctx']; and
    the frame built from the names of [req'], those header bytes and that
    payload is sent to the peer's address under the rpc id received. *)
Theorem response_is_framed_and_sent (s : Server) (data : slice) (addr : string)
    (rpcID : Z) (w : W) (md : MD) (hb : list byte) :
  In (EEncodeHeaders md (Ok hb)) (events s (RecvData data addr rpcID) w) ->
  exists sv mt hs ps req' srv ictx resp ctx' resp' pb f out,
    let evs := events s (RecvData data addr rpcID) w in
    parseFramedRequest data = Ok (sv, mt, hs, ps) /\
    In (EProcessRequest Background
          {| ID := rpcID; ServiceName := sv; Method := mt; Payload := ABytes ps |}
          (Ok req')) evs /\
    In (EHandler (ServiceName req') (Method req') srv ictx (Payload req')
          (Ok (resp, ctx'))) evs /\
    In (EProcessResponse ctx' {| Result := resp; Error := None |} (Ok resp')) evs /\
    In (EMarshal (Result resp') (Ok pb)) evs /\
    md = FromOutgoingContext ctx' /\
    frameResponse (ServiceName req') (Method req') hb pb = Ok f /\
    In (ESend addr rpcID f out) evs.
Proof.
  intros H. turn_paths; absurd_in;
    repeat eexists; first [reflexivity | find_in].
Qed.

(** C5 (amended). When the request chain returns a request whose service is
    not registered, or whose method the registered service does not have,
    the turn ends with the log line of the miss, nothing is sent, no handler
    runs, and the loop goes on to the next message with the same server. *)
Theorem registry_miss_is_dropped (s : Server) (data : slice) (addr : string)
    (rpcID : Z) (w : W) (ctx : context) (req req' : RPCRequest) (msg : logmsg)
    (rest : list received) :
  In (EProcessRequest ctx req (Ok req')) (events s (RecvData data addr rpcID) w) ->
  miss_log s req' = Some msg ->
  exists pre w',
    loop_body s (RecvData data addr rpcID) w = (pre ++ [ELog msg], w', Continue) /\
    Forall (fun e => is_send e = false /\ stage_of e <> Some INVOKE) (pre ++ [ELog msg]) /\
    serve s (RecvData data addr rpcID :: rest) w =
      (let '(e2, w2, st) := serve s rest w' in ((pre ++ [ELog msg]) ++ e2, w2, st)).
Proof.
  intros H Hmiss.
  assert (exists pre w',
    loop_body s (RecvData data addr rpcID) w = (pre ++ [ELog msg], w', Continue) /\
    Forall (fun e => is_send e = false /\ stage_of e <> Some INVOKE) (pre ++ [ELog msg]))
    as (pre & w' & Hb & Hall).
  { unfold miss_log in Hmiss.
    turn_paths; absurd_in; simplify_eq;
      match goal with
      | |- exists pre w', (?l, ?w0, _) = _ /\ _ =>
          exists (removelast l), w0
      end; simpl; (split; [reflexivity|]);
      repeat constructor; simpl; congruence. }
  exists pre, w'. split; [exact Hb|]. split; [exact Hall|].
  rewrite serve_cons, Hb. reflexivity.
Qed.

(** C6. When the handler returns an error, the turn ends right there with
    the log line of that error: no response chain, no marshalling, no
    header encoding, no framing and no send follow, and the loop goes on. *)
Theorem handler_error_is_dropped (s : Server) (r : received) (w : W)
    (service method : string) (srv : any) (ctx : context) (payload : any) (e : error) :
  In (EHandler service method srv ctx payload (Err e)) (events s r w) ->
  exists pre w',
    loop_body s r w =
      (pre ++ [EHandler service method srv ctx payload (Err e); ELog (LHandlerError e)],
       w', Continue) /\
    Forall (fun ev => after_handler ev = false)
      (pre ++ [EHandler service method srv ctx payload (Err e); ELog (LHandlerError e)]).
Proof.
  intros H. destruct r; turn_paths; absurd_in; simplify_eq;
  match goal with
  | |- exists pre w', (?l, ?w0, _) = _ /\ _ =>
      exists (removelast (removelast l)), w0
  end; simpl; (split; [reflexivity|]); repeat constructor.
Qed.

(** When the request chain returns an error, the turn is the parse, the
    call of the chain under the background context and the log line of the
    error: no lookup, no handler and no send follow, and the loop goes on. *)
Theorem interceptor_error_is_dropped (s : Server) (r : received) (w : W)
    (ctx : context) (req : RPCRequest) (e : error) :
  In (EProcessRequest ctx req (Err e)) (events s r w) ->
  exists data addr rpcID out w',
    r = RecvData data addr rpcID /\ ctx = Background /\
    loop_body s r w =
      ([EParse data out; EProcessRequest ctx req (Err e); ELog (LElementError e)],
       w', Continue).
Proof.
  intros Hin. destruct r; turn_paths; absurd_in; simplify_eq;
    repeat eexists.
Qed.

(** In a turn the handler is called with the [ServiceImpl] of the
    descriptor found in the registry. *)
Lemma turn_handler_impl (s : Server) (r : received) (w : W) :
  Forall (handler_gets_desc_impl s) (events s r w).
Proof.
  destruct r; turn_paths; repeat constructor; simpl; eauto.
Qed.

Lemma serve_handler_impl (s : Server) (inputs : list received) (w : W) :
  Forall (handler_gets_desc_impl s) (serve s inputs w).1.1.
Proof.
  revert w. induction inputs as [|r rest IH]; intros w; [constructor|].
  rewrite serve_cons. pose proof (turn_handler_impl s r w) as Hr.
  unfold events in Hr.
  destruct (loop_body s r w) as [[e1 w1] fl]. simpl in Hr.
  specialize (IH w1). destruct (serve s rest w1) as [[e2 w2] st]. simpl in IH.
  destruct fl; simpl; auto using Forall_app_2.
Qed.

(** C8. The [impl] argument of [RegisterService] has no effect: registering
    with one value or another gives the same server and the same log line,
    so [Start] behaves the same on every sequence of messages; and every
    handler call of [Start] gets the [ServiceImpl] field of the descriptor
    registered under the service's name. *)
Theorem impl_argument_is_discarded (s : Server) (desc : ServiceDesc)
    (impl1 impl2 : any) (inputs : list received) (w : W) :
  RegisterService s desc impl1 = RegisterService s desc impl2 /\
  Start (RegisterService s desc impl1).1 inputs w
    = Start (RegisterService s desc impl2).1 inputs w /\
  Forall (handler_gets_desc_impl (RegisterService s desc impl1).1)
    (Start (RegisterService s desc impl1).1 inputs w).1.1.
Proof.
  split; [reflexivity|]. split; [reflexivity|].
  unfold Start.
  pose proof (serve_handler_impl (RegisterService s desc impl1).1 inputs w) as H.
  destruct (serve (RegisterService s desc impl1).1 inputs w) as [[e w'] st].
  simpl in *. constructor; [exact I | exact H].
Qed.

(** C2 (the code at the failing inputs). [parseFramedRequest] never returns
    an error, and panics on every buffer of fewer than two bytes.  On the
    one-byte buffer 05 the first read of a length panics; on 05 00 41, whose
    service length points past its end, the slice expression panics.
    [Start] on such a datagram ends in the panic, whatever messages would
    follow. *)
Theorem short_frame_panics (s : Server) (addr : string) (rpcID : Z)
    (rest : list received) (w : W) :
  (forall data e, parseFramedRequest data <> Err e) /\
  (forall data, slice_wf data -> (len data < 2)%nat ->
                exists msg, parseFramedRequest data = Panic msg) /\
  parseFramedRequest (slice_of [Byte.x05]) = Panic "index out of range" /\
  parseFramedRequest (slice_of [Byte.x05; Byte.x00; Byte.x41])
    = Panic "slice bounds out of range" /\
  Start s (RecvData (slice_of [Byte.x05]) addr rpcID :: rest) w
    = ([ELog LServerStarted;
        EParse (slice_of [Byte.x05]) (Panic "index out of range")],
       w, Panicked "index out of range").
Proof.
  split; [exact parse_never_errs|]. split; [exact parse_short_panics|].
  repeat split; reflexivity.
Qed.


(** A turn sends at most one packet, and only to the peer whose message it
    received and under that message's rpc id. *)
Theorem turn_sends_at_most_once (s : Server) (r : received) (w : W) :
  (length (List.filter is_send (events s r w)) <= 1)%nat /\
  Forall (send_answers r) (events s r w).
Proof.
  destruct r; turn_paths;
    (split; [lia | repeat constructor; simpl; eauto]).
Qed.



(** With nothing registered no turn reaches a handler or a send. *)
Lemma empty_registry_turn (s : Server) (r : received) (w : W) :
  services s = ∅ ->
  Forall (fun e => is_send e = false /\ stage_of e <> Some INVOKE) (events s r w).
Proof.
  intros He. destruct r; turn_paths;
    try match goal with
    | H : services s !! _ = Some _ |- _ => rewrite He, lookup_empty in H; discriminate H
    end;
    repeat constructor; simpl; congruence.
Qed.

Lemma empty_registry_serve (s : Server) (inputs : list received) (w : W) :
  services s = ∅ ->
  Forall (fun e => is_send e = false /\ stage_of e <> Some INVOKE) (serve s inputs w).1.1.
Proof.
  intros He. revert w. induction inputs as [|r rest IH]; intros w; [constructor|].
  rewrite serve_cons. pose proof (empty_registry_turn s r w He) as Hr.
  unfold events in Hr.
  destruct (loop_body s r w) as [[e1 w1] fl]. simpl in Hr.
  specialize (IH w1). destruct (serve s rest w1) as [[e2 w2] st]. simpl in IH.
  destruct fl; simpl; auto using Forall_app_2.
Qed.

(** A server just made by [NewServer] has no service: whatever messages
    arrive, [Start] invokes no handler and sends nothing. *)
Theorem new_server_answers_nothing (P : Packages) (addr : string)
    (ser : Serializer) (rpcElements : list (RPCElement P)) (s : Server)
    (inputs : list received) (w : W) :
  NewServer P addr ser rpcElements = Ok s ->
  Forall (fun e => is_send e = false /\ stage_of e <> Some INVOKE)
    (Start s inputs w).1.1.
Proof.
  unfold NewServer. intros H.
  apply bind_Ok_inv in H as (t & _ & H). injection H as <-.
  unfold Start.
  match goal with
  | |- context [serve ?s0 inputs w] =>
      pose proof (empty_registry_serve s0 inputs w eq_refl) as Hs;
      destruct (serve s0 inputs w) as [[e w'] st]
  end.
  simpl in *. constructor; [split; [reflexivity | discriminate] | exact Hs].
Qed.

(** Register, then call: after [RegisterService] of [desc], a request that
    the chain returns under the name of [desc] and a method of [desc], with
    headers that decode, gets that method's handler called with the
    [ServiceImpl] of [desc], the fresh incoming context and the payload of
    the request the chain returned. *)
Theorem registered_method_is_invoked (s : Server) (desc : ServiceDesc) (impl : any)
    (data : slice) (addr : string) (rpcID : Z) (w w1 : W)
    (sv mt : string) (hs ps : slice) (req' : RPCRequest) (m : MethodDesc) (md : MD) :
  parseFramedRequest data = Ok (sv, mt, hs, ps) ->
  ProcessRequest (rpcElementChain s) Background
    {| ID := rpcID; ServiceName := sv; Method := mt; Payload := ABytes ps |} w
    = (Ok req', w1) ->
  ServiceName req' = ServiceName' desc ->
  Methods desc !! Method req' = Some m ->
  DecodeHeaders (metadataCodec s) hs = Ok md ->
  In (EHandler (ServiceName req') (Method req') (ServiceImpl desc)
        (NewIncomingContext Background md) (Payload req')
        (Handler m (ServiceImpl desc) (NewIncomingContext Background md)
           (dec (RegisterService s desc impl).1 req') w1).1)
     (events (RegisterService s desc impl).1 (RecvData data addr rpcID) w).
Proof.
  intros Hp Hc Hn Hm Hd.
  assert (Hl : services (RegisterService s desc impl).1 !! ServiceName req' = Some desc).
  { simpl. rewrite Hn. apply lookup_insert_eq. }
  change (rpcElementChain s) with (rpcElementChain (RegisterService s desc impl).1) in Hc.
  change (metadataCodec s) with (metadataCodec (RegisterService s desc impl).1) in Hd.
  generalize dependent (RegisterService s desc impl).1. intros s' Hc Hd Hl.
  unfold_turn. rewrite Hp. simpl. rewrite Hc. simpl. rewrite Hl. simpl.
  rewrite Hm. simpl. rewrite Hd. simpl.
  repeat (case_match; simplify_eq/=); find_in.
Qed.

(** The decoder handed to the handler asserts that the payload is a byte
    slice (line 191).  When an element of the request chain has replaced
    the payload by another value and the handler calls the decoder without
    recovering, the panic of the assertion ends the server: the turn stops
    at the handler and no later message is served. *)
Theorem non_bytes_payload_panics (s : Server) (data : slice) (addr : string)
    (rpcID : Z) (w w1 w2 : W) (sv mt : string) (hs ps : slice)
    (req' : RPCRequest) (d : ServiceDesc) (m : MethodDesc) (md : MD)
    (rest : list received) :
  parseFramedRequest data = Ok (sv, mt, hs, ps) ->
  ProcessRequest (rpcElementChain s) Background
    {| ID := rpcID; ServiceName := sv; Method := mt; Payload := ABytes ps |} w
    = (Ok req', w1) ->
  (forall b, Payload req' <> ABytes b) ->
  services s !! ServiceName req' = Some d ->
  Methods d !! Method req' = Some m ->
  DecodeHeaders (metadataCodec s) hs = Ok md ->
  Handler m (ServiceImpl d) (NewIncomingContext Background md)
    (Panic "interface conversion: interface {} is not []uint8") w1
    = (Panic "interface conversion: interface {} is not []uint8", w2) ->
  exists pre,
    serve s (RecvData data addr rpcID :: rest) w =
      (pre ++ [EHandler (ServiceName req') (Method req') (ServiceImpl d)
                 (NewIncomingContext Background md) (Payload req')
                 (Panic "interface conversion: interface {} is not []uint8")],
       w2, Panicked "interface conversion: interface {} is not []uint8").
Proof.
  intros Hp Hc Hb Hl Hm Hd Hh.
  assert (Hdec : dec s req' = Panic "interface conversion: interface {} is not []uint8").
  { unfold dec. destruct (Payload req') as [b| |] eqn:E; [|reflexivity..].
    destruct (Hb b eq_refl). }
  simpl serve. unfold_turn. rewrite Hp. simpl. rewrite Hc. simpl. rewrite Hl. simpl.
  rewrite Hm. simpl. rewrite Hd. simpl. rewrite Hdec, Hh. simpl.
  eexists [_; _; _; _; _; _]. reflexivity.
Qed.

End DispatcherFacts.

(* ===================================================================== *)
(** ** The resolver *)
(* ===================================================================== *)

Module ResolveFacts.
Import Resolve.

Lemma append_nil (t : string) : "" +:+ t = t.
Proof. reflexivity. Qed.

Lemma append_cons (a : ascii) (s t : string) :
  String a s +:+ t = String a (s +:+ t).
Proof. reflexivity. Qed.

Lemma append_snoc (s : string) (c : ascii) (t : string) :
  (s +:+ String c "") +:+ t = s +:+ String c t.
Proof.
  induction s as [|a s IH]; rewrite ?append_nil, ?append_cons; [reflexivity|].
  rewrite IH. reflexivity.
Qed.

Lemma slen_append (s t : string) : slen (s +:+ t) = slen s + slen t.
Proof.
  unfold slen. induction s as [|a s IH]; rewrite ?append_nil, ?append_cons;
    simpl String.length; lia.
Qed.

Lemma IndexByte_lower (s : string) (c : ascii) : -1 <= IndexByte s c.
Proof.
  induction s as [|a s IH]; simpl; [lia|].
  destruct (Ascii.eqb a c); [lia|]. destruct (IndexByte s c <? 0) eqn:E; lia.
Qed.

Lemma IndexByte_cons_absent (a c : ascii) (s : string) :
  IndexByte (String a s) c < 0 -> Ascii.eqb a c = false /\ IndexByte s c < 0.
Proof.
  simpl. destruct (Ascii.eqb a c); [lia|].
  destruct (IndexByte s c <? 0) eqn:E; [apply Z.ltb_lt in E; auto|].
  pose proof (IndexByte_lower s c). lia.
Qed.

(** A byte that occurs neither in [s] nor in [t] does not occur in [s ++ t]. *)
Lemma IndexByte_append_absent (s t : string) (c : ascii) :
  IndexByte s c < 0 -> IndexByte t c < 0 -> IndexByte (s +:+ t) c < 0.
Proof.
  intros Hs Ht. induction s as [|a s IH]; rewrite ?append_nil, ?append_cons;
    [exact Ht|].
  apply IndexByte_cons_absent in Hs as [Ha Hs]. simpl. rewrite Ha.
  specialize (IH Hs). destruct (IndexByte (s +:+ t) c <? 0) eqn:E'; lia.
Qed.

Lemma LastIndexByte_absent (s : string) (c : ascii) :
  IndexByte s c < 0 -> LastIndexByte s c < 0.
Proof.
  induction s as [|a s IH]; simpl; [lia|]. intros H.
  change (IndexByte (String a s) c < 0) in H.
  apply IndexByte_cons_absent in H as [-> H]. specialize (IH H).
  destruct (0 <=? LastIndexByte s c) eqn:E; lia.
Qed.

(** The last [c] of [s ++ c :: t], when [t] has none, is at [len(s)]. *)
Lemma LastIndexByte_append (s t : string) (c : ascii) :
  IndexByte t c < 0 -> LastIndexByte (s +:+ String c t) c = slen s.
Proof.
  intros Ht. apply LastIndexByte_absent in Ht. unfold slen.
  induction s as [|a s IH]; rewrite ?append_nil, ?append_cons.
  - simpl. destruct (0 <=? LastIndexByte t c) eqn:E; [lia|].
    rewrite Ascii.eqb_refl. reflexivity.
  - simpl LastIndexByte. rewrite IH.
    destruct (0 <=? Z.of_nat (String.length s)) eqn:E; simpl String.length; lia.
Qed.

Lemma substring_all (s : string) : String.substring 0 (String.length s) s = s.
Proof. induction s as [|a s IH]; simpl; congruence. Qed.

Lemma substring_prefix (s t : string) :
  String.substring 0 (String.length s) (s +:+ t) = s.
Proof.
  induction s as [|a s IH]; rewrite ?append_nil, ?append_cons; simpl;
    [destruct t; reflexivity|].
  f_equal. exact IH.
Qed.

Lemma substring_suffix (s t : string) :
  String.substring (String.length s) (String.length t) (s +:+ t) = t.
Proof.
  induction s as [|a s IH]; rewrite ?append_nil, ?append_cons; simpl;
    [apply substring_all | exact IH].
Qed.

Lemma sub_prefix (s t : string) : sub (s +:+ t) 0 (slen s) = s.
Proof.
  unfold sub, slen. rewrite Z.sub_0_r, Nat2Z.id. apply substring_prefix.
Qed.

Lemma from_suffix (s t : string) (i : Z) : i = slen s -> from (s +:+ t) i = t.
Proof.
  intros ->. unfold from, sub. rewrite slen_append. unfold slen.
  rewrite Nat2Z.id.
  replace (Z.to_nat (_ + _ - _)) with (String.length t) by lia.
  apply substring_suffix.
Qed.

Lemma from_0 (s : string) : from s 0 = s.
Proof. apply (from_suffix EmptyString s 0). reflexivity. Qed.

(** Digits are not colons or brackets, and neither are signs. *)
Lemma digits_absent (s : string) (acc n : Z) (c : ascii) :
  digits_value s acc = Some n -> is_digit c = false -> IndexByte s c < 0.
Proof.
  revert acc. induction s as [|a s IH]; simpl; intros acc Hd Hc; [lia|].
  destruct (is_digit a) eqn:Ha; [|discriminate].
  destruct (Ascii.eqb_spec a c) as [->|_]; [congruence|].
  specialize (IH _ Hd Hc). destruct (IndexByte s c <? 0) eqn:E; lia.
Qed.

Lemma Atoi_absent (p : string) (port : Z) (c : ascii) :
  Atoi p = Ok port -> is_digit c = false ->
  Ascii.eqb "-" c = false -> Ascii.eqb "+" c = false -> IndexByte p c < 0.
Proof.
  unfold Atoi. destruct p as [|a rest]; [discriminate|].
  intros H Hc Hm Hp.
  destruct (Ascii.eqb a "-" || Ascii.eqb a "+") eqn:Hsign.
  - destruct rest as [|b rest']; [discriminate|].
    destruct (digits_value (String b rest') 0) as [n|] eqn:Hd; [|discriminate].
    pose proof (digits_absent _ _ _ c Hd Hc) as Hr.
    change (IndexByte (String a (String b rest')) c) with
      (if Ascii.eqb a c then 0
       else let i := IndexByte (String b rest') c in if i <? 0 then -1 else i + 1).
    apply orb_true_iff in Hsign as [E|E]; apply Ascii.eqb_eq in E; subst a;
      rewrite ?Hm, ?Hp; cbv zeta;
      destruct (IndexByte (String b rest') c <? 0) eqn:E'; lia.
  - destruct (digits_value (String a rest) 0) as [n|] eqn:Hd; [|discriminate].
    exact (digits_absent _ _ _ c Hd Hc).
Qed.

Lemma Atoi_plain (p : string) (port : Z) : Atoi p = Ok port -> plain p.
Proof.
  intros H. repeat split; apply (Atoi_absent p port _ H); reflexivity.
Qed.

(** [SplitHostPort] on "host:port" with no colon or bracket in either part. *)
Lemma SplitHostPort_plain (host p : string) :
  plain host -> plain p ->
  SplitHostPort (host +:+ ":" +:+ p) = Ok (host, p).
Proof.
  intros (Hc & Hl & Hr) (Pc & Pl & Pr).
  change (host +:+ ":" +:+ p) with (host +:+ String ":" p).
  unfold SplitHostPort. rewrite (LastIndexByte_append host p ":" Pc).
  assert (Hpos : (slen host <? 0) = false) by (apply Z.ltb_ge; unfold slen; lia).
  rewrite Hpos.
  assert (Hb : match at_ (host +:+ String ":" p) 0 with
               | Some c => Ascii.eqb c "["
               | None => false
               end = false).
  { destruct host as [|a host']; [reflexivity|].
    apply IndexByte_cons_absent in Hl as [Ha _]. exact Ha. }
  rewrite Hb, sub_prefix.
  assert (Hh : (0 <=? IndexByte host ":") = false) by (apply Z.leb_gt; exact Hc).
  rewrite Hh. cbn [mbind result_bind rbind]. rewrite from_0.
  assert (Hl' : (0 <=? IndexByte (host +:+ String ":" p) "[") = false).
  { apply Z.leb_gt, IndexByte_append_absent; [exact Hl|].
    simpl. destruct (IndexByte p "[" <? 0) eqn:E; lia. }
  assert (Hr' : (0 <=? IndexByte (host +:+ String ":" p) "]") = false).
  { apply Z.leb_gt, IndexByte_append_absent; [exact Hr|].
    simpl. destruct (IndexByte p "]" <? 0) eqn:E; lia. }
  rewrite Hl', Hr'. f_equal. f_equal.
  rewrite <- (append_snoc host ":" p). apply from_suffix.
  rewrite slen_append. reflexivity.
Qed.

Lemma plain_empty : plain "".
Proof. repeat split; reflexivity. Qed.

(** The first [c] of [s ++ c :: t], when [s] has none, is at [len(s)]. *)
Lemma IndexByte_append_first (s t : string) (c : ascii) :
  IndexByte s c < 0 -> IndexByte (s +:+ String c t) c = slen s.
Proof.
  unfold slen. induction s as [|a s IH]; rewrite ?append_nil, ?append_cons; intros Hs.
  - simpl. rewrite Ascii.eqb_refl. reflexivity.
  - apply IndexByte_cons_absent in Hs as [Ha Hs]. simpl IndexByte. rewrite Ha.
    rewrite (IH Hs). cbv zeta.
    destruct (Z.of_nat (String.length s) <? 0) eqn:E; simpl String.length; lia.
Qed.

Lemma from_cons (a : ascii) (s : string) : from (String a s) 1 = s.
Proof. apply (from_suffix (String a "") s 1). reflexivity. Qed.

Lemma prefix_char (c a : ascii) (s : string) :
  String.prefix (String c "") (String a s) = Ascii.eqb c a.
Proof.
  change (String.prefix (String c "") (String a s))
    with (if ascii_dec c a then String.prefix "" s else false).
  destruct (ascii_dec c a) as [->|n].
  - rewrite Ascii.eqb_refl. destruct s; reflexivity.
  - symmetry. apply Ascii.eqb_neq. exact n.
Qed.

(** [SplitHostPort] returns as port what follows the last colon. *)
Lemma SplitHostPort_port (addr host port : string) :
  SplitHostPort addr = Ok (host, port) ->
  port = from addr (LastIndexByte addr ":" + 1).
Proof.
  unfold SplitHostPort.
  destruct (LastIndexByte addr ":" <? 0); [discriminate|].
  intros H. apply bind_Ok_inv in H as ([[h j] k] & _ & H).
  destruct (0 <=? IndexByte (from addr j) "["); [discriminate|].
  destruct (0 <=? IndexByte (from addr k) "]"); [discriminate|].
  congruence.
Qed.

(** An address that [SplitHostPort] refuses has no integer behind a leading
    colon: the fallback of [ResolveUDPTarget] finds no port. *)
Lemma fallback_finds_no_port (addr : string) (e : AddrError) (after : string) (port : Z) :
  SplitHostPort addr = Err e -> CutPrefix addr ":" = (after, true) ->
  Atoi after <> Ok port.
Proof.
  intros Hs Hc Ha. unfold CutPrefix in Hc.
  destruct addr as [|a addr']; [discriminate|].
  rewrite prefix_char in Hc.
  destruct (Ascii.eqb_spec ":" a) as [<-|]; [|discriminate].
  injection Hc as <-. change (slen ":") with 1 in Ha. rewrite from_cons in Ha.
  destruct addr' as [|a addr'].
  - discriminate.
  - pose proof (SplitHostPort_plain "" _ plain_empty (Atoi_plain _ _ Ha)) as Hok.
    rewrite append_nil in Hok. change (":" +:+ String a addr') with (String ":" (String a addr')) in Hok.
    congruence.
Qed.

(** [SplitHostPort] on "[host]:port": the brackets are taken off. *)
Lemma SplitHostPort_bracketed (host p : string) :
  IndexByte host "[" < 0 -> IndexByte host "]" < 0 -> plain p ->
  SplitHostPort ("[" +:+ host +:+ "]:" +:+ p) = Ok (host, p).
Proof.
  intros Hl Hr (Pc & Pl & Pr).
  change ("[" +:+ host +:+ "]:" +:+ p)
    with (String "[" (host +:+ String "]" (String ":" p))).
  assert (Hsplit : String "[" (host +:+ String "]" (String ":" p))
                   = String "[" (host +:+ "]") +:+ String ":" p).
  { rewrite append_cons, append_snoc. reflexivity. }
  assert (Hlen : slen (String "[" (host +:+ "]")) = slen host + 2).
  { change (String "[" (host +:+ "]")) with ("[" +:+ (host +:+ "]")).
    rewrite !slen_append. change (slen "[") with 1. change (slen "]") with 1. lia. }
  assert (Hi : LastIndexByte (String "[" (host +:+ String "]" (String ":" p))) ":"
               = slen host + 2).
  { rewrite Hsplit, (LastIndexByte_append _ p ":" Pc). exact Hlen. }
  assert (Hend : IndexByte (String "[" (host +:+ String "]" (String ":" p))) "]"
                 = slen host + 1).
  { simpl IndexByte. rewrite (IndexByte_append_first host _ "]" Hr). cbv zeta.
    destruct (slen host <? 0) eqn:E; [apply Z.ltb_lt in E; unfold slen in E|]; lia. }
  assert (Htot : slen (String "[" (host +:+ String "]" (String ":" p)))
                 = slen host + 3 + slen p).
  { rewrite Hsplit, slen_append, Hlen.
    change (String ":" p) with (":" +:+ p). rewrite slen_append.
    change (slen ":") with 1. lia. }
  unfold SplitHostPort. rewrite Hi, Hend, Htot.
  assert (H0 : (slen host + 2 <? 0) = false) by (apply Z.ltb_ge; unfold slen; lia).
  assert (H1 : (slen host + 1 <? 0) = false) by (apply Z.ltb_ge; unfold slen; lia).
  assert (H2 : (slen host + 1 + 1 =? slen host + 3 + slen p) = false)
    by (apply Z.eqb_neq; unfold slen; lia).
  assert (H3 : (slen host + 1 + 1 =? slen host + 2) = true) by (apply Z.eqb_eq; lia).
  rewrite H0, H1, H2, H3.
  assert (Hat : match at_ (String "[" (host +:+ String "]" (String ":" p))) 0 with
                | Some c => Ascii.eqb c "["
                | None => false
                end = true) by reflexivity.
  rewrite Hat. cbn [mbind result_bind rbind].
  assert (Hsub : sub (String "[" (host +:+ String "]" (String ":" p))) 1 (slen host + 1)
                 = host).
  { unfold sub, slen. replace (Z.to_nat (Z.of_nat (String.length host) + 1 - 1))
      with (String.length host) by lia.
    change (Z.to_nat 1) with 1%nat. cbn [String.substring].
    apply substring_prefix. }
  assert (Hfrom1 : from (String "[" (host +:+ String "]" (String ":" p))) 1
                   = host +:+ String "]" (String ":" p)) by apply from_cons.
  assert (Hfrom2 : from (String "[" (host +:+ String "]" (String ":" p)))
                     (slen host + 1 + 1) = String ":" p).
  { rewrite Hsplit. apply from_suffix. rewrite Hlen. lia. }
  assert (Hfrom3 : from (String "[" (host +:+ String "]" (String ":" p)))
                     (slen host + 2 + 1) = p).
  { rewrite Hsplit, <- (append_snoc _ ":" p). apply from_suffix.
    rewrite slen_append, Hlen. reflexivity. }
  rewrite Hsub. cbv beta iota zeta. rewrite Hfrom1, Hfrom2, Hfrom3.
  assert (Hb1 : (0 <=? IndexByte (host +:+ String "]" (String ":" p)) "[") = false).
  { apply Z.leb_gt, IndexByte_append_absent; [exact Hl|].
    simpl. destruct (IndexByte p "[" <? 0) eqn:E; [|lia]. reflexivity. }
  assert (Hb2 : (0 <=? IndexByte (String ":" p) "]") = false).
  { apply Z.leb_gt. simpl. destruct (IndexByte p "]" <? 0) eqn:E; lia. }
  rewrite Hb1, Hb2. reflexivity.
Qed.

Section WithNet.
Context `{NET : Net}.

(** After a successful split and a port that parses, an empty host is the
    wildcard and a host that is a literal IP is returned as it is. *)
Lemma resolve_split (r : Resolver) (host p : string) (port : Z) :
  plain host -> Atoi p = Ok port ->
  (host = ""%string ->
   ResolveUDPTarget r (host +:+ ":" +:+ p)
     = ([], Ok {| IP := IPv4zero; Port := port; Zone := "" |})) /\
  (forall ip, host <> ""%string -> ParseIP host = Some ip ->
   ResolveUDPTarget r (host +:+ ":" +:+ p)
     = ([], Ok {| IP := ip; Port := port; Zone := "" |})).
Proof.
  intros Hh Hp. unfold ResolveUDPTarget.
  assert (Hne : String.eqb (host +:+ ":" +:+ p) "" = false).
  { apply String.eqb_neq. destruct host; discriminate. }
  rewrite Hne, (SplitHostPort_plain host p Hh (Atoi_plain p port Hp)), Hp.
  split.
  - intros ->. reflexivity.
  - intros ip Hhost Hip.
    destruct (String.eqb_spec host ""); [contradiction|].
    rewrite Hip. reflexivity.
Qed.

(** C7 (amended). The bind form ":p", for [p] that [Atoi] accepts, resolves
    to the wildcard address 0.0.0.0 with port [p]; and "host:p" resolves to
    the IP that [host] parses as, with port [p], when [host] is not empty
    and has no colon and no square bracket (as an IPv4 literal). *)
Theorem resolve_bind_and_literal (r : Resolver) (p : string) (port : Z) :
  Atoi p = Ok port ->
  ResolveUDPTarget r (":" +:+ p)
    = ([], Ok {| IP := IPv4 Byte.x00 Byte.x00 Byte.x00 Byte.x00;
                 Port := port; Zone := "" |}) /\
  forall (host : string) (ip : net_IP),
    plain host -> host <> ""%string -> ParseIP host = Some ip ->
    ResolveUDPTarget r (host +:+ ":" +:+ p)
      = ([], Ok {| IP := ip; Port := port; Zone := "" |}).
Proof.
  intros Hp. split.
  - exact (proj1 (resolve_split r "" p port plain_empty Hp) eq_refl).
  - intros host ip Hh Hne Hip.
    exact (proj2 (resolve_split r host p port Hh Hp) ip Hne Hip).
Qed.

(** C10. The empty address resolves to the wildcard address 0.0.0.0 with
    port 0, without an error and without a log line. *)
Theorem resolve_empty (r : Resolver) :
  ResolveUDPTarget r ""
  = ([], Ok {| IP := IPv4 Byte.x00 Byte.x00 Byte.x00 Byte.x00;
               Port := 0; Zone := "" |}).
Proof. reflexivity. Qed.

(** A name that is not an IP literal goes to the name service and the
    balancer: the balancer's choice is returned with the port, a nil choice
    and a failed or empty lookup are errors. *)
Theorem resolve_name (r : Resolver) (host p : string) (port : Z) :
  plain host -> host <> ""%string -> Atoi p = Ok port -> ParseIP host = None ->
  ResolveUDPTarget r (host +:+ ":" +:+ p) =
  match LookupIP host with
  | Panic msg => ([], Panic msg)
  | Err err => ([], Err (DNSLookupFailed host (Some err)))
  | Ok [] => ([], Err (DNSLookupFailed host None))
  | Ok ips =>
      match Pick (balancer r) host ips with
      | None => ([LResolved host ips], Err (BalancerFailed host))
      | Some chosen =>
          ([LResolved host ips;
            LSelected (Name (balancer r)) (host +:+ ":" +:+ p) chosen port],
           Ok {| IP := chosen; Port := port; Zone := "" |})
      end
  end.
Proof.
  intros Hh Hne Hp Hip. unfold ResolveUDPTarget.
  assert (Hnz : String.eqb (host +:+ ":" +:+ p) "" = false).
  { apply String.eqb_neq. destruct host; discriminate. }
  rewrite Hnz, (SplitHostPort_plain host p Hh (Atoi_plain p port Hp)), Hp.
  destruct (String.eqb_spec host ""); [contradiction|].
  rewrite Hip. reflexivity.
Qed.

(** Whenever [ResolveUDPTarget] returns an address, the address string is
    empty and the port is 0, or [SplitHostPort] accepted the string and the
    port is the integer that follows its last colon.  The fallback for a
    leading colon never yields an address. *)
Theorem resolved_port_follows_last_colon (r : Resolver) (addr : string) (u : UDPAddr) :
  (ResolveUDPTarget r addr).2 = Ok u ->
  (addr = ""%string /\ Port u = 0) \/
  (exists host, SplitHostPort addr = Ok (host, from addr (LastIndexByte addr ":" + 1)) /\
     Atoi (from addr (LastIndexByte addr ":" + 1)) = Ok (Port u)).
Proof.
  unfold ResolveUDPTarget.
  destruct (String.eqb_spec addr "") as [->|Hne].
  { intros [= <-]. left. split; reflexivity. }
  intros H. right.
  destruct (SplitHostPort addr) as [[host portStr]|e|msg] eqn:Hs.
  - pose proof (SplitHostPort_port addr host portStr Hs) as ->.
    exists host. split; [reflexivity|].
    destruct (Atoi _) as [port|e|msg]; try discriminate.
    repeat case_match; simplify_eq/=; reflexivity.
  - exfalso. destruct (CutPrefix addr ":") as [after ok] eqn:Hc.
    destruct ok; [|discriminate].
    destruct (Atoi after) as [port|e'|msg] eqn:Ha; try discriminate.
    exact (fallback_finds_no_port addr e after port Hs Hc Ha).
  - discriminate.
Qed.

(** An address with no colon (and not empty) has no port: it is refused as
    an invalid address before anything is looked up. *)
Theorem resolve_without_port (r : Resolver) (addr : string) :
  addr <> ""%string -> IndexByte addr ":" < 0 ->
  ResolveUDPTarget r addr = ([], Err (InvalidAddr addr MissingPort)).
Proof.
  intros Hne Hc. unfold ResolveUDPTarget.
  destruct (String.eqb_spec addr ""); [contradiction|].
  unfold SplitHostPort.
  pose proof (LastIndexByte_absent addr ":" Hc) as Hl.
  apply Z.ltb_lt in Hl. rewrite Hl.
  unfold CutPrefix. destruct addr as [|a addr']; [contradiction|].
  apply IndexByte_cons_absent in Hc as [Ha _].
  rewrite prefix_char, Ascii.eqb_sym, Ha. reflexivity.
Qed.

(** An IP literal in square brackets, as IPv6 literals must be written,
    resolves to the IP it parses as, with the port behind the brackets. *)
Theorem resolve_bracketed (r : Resolver) (host p : string) (port : Z) (ip : net_IP) :
  IndexByte host "[" < 0 -> IndexByte host "]" < 0 -> host <> ""%string ->
  Atoi p = Ok port -> ParseIP host = Some ip ->
  ResolveUDPTarget r ("[" +:+ host +:+ "]:" +:+ p)
    = ([], Ok {| IP := ip; Port := port; Zone := "" |}).
Proof.
  intros Hl Hr Hne Hp Hip. unfold ResolveUDPTarget.
  rewrite (SplitHostPort_bracketed host p Hl Hr (Atoi_plain p port Hp)), Hp.
  change (String.eqb ("[" +:+ host +:+ "]:" +:+ p) "") with false. cbv iota.
  destruct (String.eqb_spec host ""); [contradiction|].
  rewrite Hip. reflexivity.
Qed.

(** An unbracketed IPv6 literal with a port is refused before [ParseIP] is
    reached, whatever [ParseIP] would say. *)
Lemma resolve_ipv6_unbracketed (r : Resolver) :
  ResolveUDPTarget r "::1:80" = ([], Err (InvalidPort "::1:80" ErrSyntax)) /\
  ResolveUDPTarget r "fe80::1:80" = ([], Err (InvalidAddr "fe80::1:80" TooManyColons)).
Proof. split; reflexivity. Qed.

End WithNet.

End ResolveFacts.

(* ===================================================================== *)
(** ** Runs of the echo server and of the resolver *)
(* ===================================================================== *)

Section EchoRuns.
#[local] Existing Instance Echo.RT.

(** Membership in a list given as a run: the list is evaluated one cell at
    a time. *)
Ltac find_in := repeat (hnf; first [left; reflexivity | right]).

Ltac none_in H :=
  repeat (hnf in H; destruct H as [H|H]; [discriminate H|]); hnf in H; destruct H.

(** A service name of 65536 bytes. *)
Lemma long_name_witness :
  exists rest,
    frameResponse Echo.long_name "Say" [] []
    = Ok (PutUint16 (slen Echo.long_name mod 2 ^ 16) ++ bytes_of_string Echo.long_name ++
          PutUint16 (slen "Say" mod 2 ^ 16) ++ bytes_of_string "Say" ++ rest) /\
    (slen Echo.long_name mod 2 ^ 16 <> slen Echo.long_name \/
     slen "Say" mod 2 ^ 16 <> slen "Say") /\
    forall d f, frameResponse Echo.long_name "Say" [] [] = Ok f -> elems d = f ->
      forall hs ps, parseFramedRequest d <> Ok (Echo.long_name, "Say"%string, hs, ps).
Proof.
  apply (long_name_frame_does_not_round_trip Echo.long_name "Say" [] []).
  left. vm_compute. reflexivity.
Defined.

(** C3 (counterexample). A successful call of Echo.Say: the request chain
    runs second, before both lookups and before the headers are decoded, so
    the stages do not follow the numbering of the specification. *)
Lemma spec_order_counterexample :
  stages (events (Echo.server Echo.counting_chain)
            (RecvData (Echo.request "Echo" "Say") Echo.peer 7) 0%nat)
  = [PARSE_FRAME; REQUEST_INTERCEPT; LOOKUP; LOOKUP; DECODE_HEADERS; INVOKE;
     RESPONSE_INTERCEPT; MARSHAL; MARSHAL; MARSHAL; SEND] /\
  ~ follows spec_rank
      (stages (events (Echo.server Echo.counting_chain)
                 (RecvData (Echo.request "Echo" "Say") Echo.peer 7) 0%nat)).
Proof.
  split; [vm_compute; reflexivity|].
  intros H. vm_compute in H.
  apply StronglySorted_inv in H as [H _].
  apply StronglySorted_inv in H as [_ H].
  apply Forall_inv in H. lia.
Qed.

(** The same call is a turn that invokes the handler, which returns
    "hello". *)
Lemma stages_in_code_order_witness :
  exists data addr rpcID sv mt hs ps req' d md rest,
    RecvData (Echo.request "Echo" "Say") Echo.peer 7 = RecvData data addr rpcID /\
    services (Echo.server Echo.counting_chain) !! ServiceName req' = Some d /\
    events (Echo.server Echo.counting_chain)
      (RecvData (Echo.request "Echo" "Say") Echo.peer 7) 0%nat =
      [EParse data (Ok (sv, mt, hs, ps));
       EProcessRequest Background
         {| ID := rpcID; ServiceName := sv; Method := mt; Payload := ABytes ps |}
         (Ok req');
       ELookupService (ServiceName req') true;
       ELookupMethod (ServiceName req') (Method req') true;
       EDecodeHeaders hs (Ok md);
       ELog (LReceivedHeaders (ServiceName req') (Method req') md);
       EHandler (ServiceName req') (Method req') (ServiceImpl d)
         (NewIncomingContext Background md) (Payload req')
         (Ok (AValue "hello"%string, ((∅, ∅) : @context Echo.RT)))] ++ rest.
Proof.
  destruct (stages_in_code_order (Echo.server Echo.counting_chain)
              (RecvData (Echo.request "Echo" "Say") Echo.peer 7) 0%nat)
    as (_ & _ & H).
  eapply H. find_in.
Defined.

(** The same call, from [Echo.peer] under rpc id 7, is a turn that reaches
    the encoding of the headers. *)
Lemma response_is_framed_and_sent_witness :
  exists sv mt hs ps req' srv ictx resp ctx' resp' pb f out,
    let evs := events (Echo.server Echo.counting_chain)
                 (RecvData (Echo.request "Echo" "Say") Echo.peer 7) 0%nat in
    parseFramedRequest (Echo.request "Echo" "Say") = Ok (sv, mt, hs, ps) /\
    In (EProcessRequest Background
          {| ID := 7; ServiceName := sv; Method := mt; Payload := ABytes ps |}
          (Ok req')) evs /\
    In (EHandler (ServiceName req') (Method req') srv ictx (Payload req')
          (Ok (resp, ctx'))) evs /\
    In (EProcessResponse ctx' {| Result := resp; Error := None |} (Ok resp')) evs /\
    In (EMarshal (Result resp') (Ok pb)) evs /\
    (∅ : MD) = FromOutgoingContext ctx' /\
    frameResponse (ServiceName req') (Method req') [] pb = Ok f /\
    In (ESend Echo.peer 7 f out) evs.
Proof.
  apply (response_is_framed_and_sent (Echo.server Echo.counting_chain)
           (Echo.request "Echo" "Say") Echo.peer 7 0%nat ∅ []).
  find_in.
Defined.

(** C4 (counterexample). A call of Alias.Say through the routing chain: the
    handler returns "hello", yet the payload sent is "stamped", the result
    of the response chain, and the frame sent names the service "Echo", the
    name the request chain returned, not "Alias".  The frame of the claim,
    with the names of the request and the handler's result, is not sent. *)
Lemma response_counterexample :
  let evs := events (Echo.server Echo.routing_chain)
               (RecvData (Echo.request "Alias" "Say") Echo.peer 7) 0%nat in
  (exists hs ps, parseFramedRequest (Echo.request "Alias" "Say")
                 = Ok ("Alias"%string, "Say"%string, hs, ps)) /\
  (exists srv ctx payload ctx',
     In (EHandler "Echo" "Say" srv ctx payload (Ok (AValue "hello"%string, ctx'))) evs) /\
  (exists f, frameResponse "Echo" "Say" [] (bytes_of_string "stamped") = Ok f /\
             In (ESend Echo.peer 7 f (Ok tt)) evs) /\
  (forall f out, frameResponse "Alias" "Say" [] (bytes_of_string "hello") = Ok f ->
                 ~ In (ESend Echo.peer 7 f out) evs).
Proof.
  split; [|split; [|split]].
  - do 2 eexists. reflexivity.
  - do 4 eexists. find_in.
  - eexists. split; [reflexivity|]. find_in.
  - intros f out Hf H. injection Hf as <-. none_in H.
Qed.

(** A call of Nope.Say, a service that is not registered. *)
Lemma registry_miss_is_dropped_witness :
  exists pre w',
    loop_body (Echo.server Echo.counting_chain)
      (RecvData (Echo.request "Nope" "Say") Echo.peer 7) 0%nat
      = (pre ++ [ELog (LUnknownService "Nope")], w', Continue) /\
    Forall (fun e => is_send e = false /\ stage_of e <> Some INVOKE)
      (pre ++ [ELog (LUnknownService "Nope")]) /\
    serve (Echo.server Echo.counting_chain)
      [RecvData (Echo.request "Nope" "Say") Echo.peer 7] 0%nat =
      (let '(e2, w2, st) := serve (Echo.server Echo.counting_chain) [] w' in
       ((pre ++ [ELog (LUnknownService "Nope")]) ++ e2, w2, st)).
Proof.
  eapply (registry_miss_is_dropped (Echo.server Echo.counting_chain)
            (Echo.request "Nope" "Say") Echo.peer 7 0%nat).
  - find_in.
  - reflexivity.
Defined.

(** C5 (counterexample). "Nope" and "Alias" are not registered.  Behind the
    refusing chain a call of Nope.Say is dropped without the log line of the
    miss; behind the routing chain a call of Alias.Say is answered. *)
Lemma registry_miss_counterexample :
  services (Echo.server Echo.refusing_chain) !! "Nope"%string = None /\
  (exists hs ps, parseFramedRequest (Echo.request "Nope" "Say")
                 = Ok ("Nope"%string, "Say"%string, hs, ps)) /\
  ~ In (ELog (LUnknownService "Nope"))
       (events (Echo.server Echo.refusing_chain)
          (RecvData (Echo.request "Nope" "Say") Echo.peer 7) 0%nat) /\
  services (Echo.server Echo.routing_chain) !! "Alias"%string = None /\
  (exists hs ps, parseFramedRequest (Echo.request "Alias" "Say")
                 = Ok ("Alias"%string, "Say"%string, hs, ps)) /\
  (exists f out,
     In (ESend Echo.peer 7 f out)
        (events (Echo.server Echo.routing_chain)
           (RecvData (Echo.request "Alias" "Say") Echo.peer 7) 0%nat)).
Proof.
  split; [reflexivity|].
  split; [do 2 eexists; reflexivity|].
  split; [intros H; none_in H|].
  split; [reflexivity|].
  split; [do 2 eexists; reflexivity|].
  do 2 eexists. find_in.
Qed.

(** A call of Echo.Fail, whose handler returns the error "boom". *)
Lemma handler_error_is_dropped_witness :
  exists srv ctx payload pre w',
    loop_body (Echo.server Echo.counting_chain)
      (RecvData (Echo.request "Echo" "Fail") Echo.peer 7) 0%nat =
      (pre ++ [EHandler "Echo" "Fail" srv ctx payload (Err "boom"%string);
               ELog (LHandlerError "boom")],
       w', Continue) /\
    Forall (fun ev => after_handler ev = false)
      (pre ++ [EHandler "Echo" "Fail" srv ctx payload (Err "boom"%string);
               ELog (LHandlerError "boom")]).
Proof.
  do 3 eexists.
  eapply (handler_error_is_dropped (Echo.server Echo.counting_chain)
            (RecvData (Echo.request "Echo" "Fail") Echo.peer 7) 0%nat).
  find_in.
Defined.

(** A call of Echo.Say behind the refusing chain. *)
Lemma interceptor_error_is_dropped_witness :
  exists ctx req data addr rpcID out w',
    RecvData (Echo.request "Echo" "Say") Echo.peer 7 = RecvData data addr rpcID /\
    ctx = Background /\
    loop_body (Echo.server Echo.refusing_chain)
      (RecvData (Echo.request "Echo" "Say") Echo.peer 7) 0%nat =
      ([EParse data out; EProcessRequest ctx req (Err "denied"%string);
        ELog (LElementError "denied")],
       w', Continue).
Proof.
  do 2 eexists.
  eapply (interceptor_error_is_dropped (Echo.server Echo.refusing_chain)
            (RecvData (Echo.request "Echo" "Say") Echo.peer 7) 0%nat).
  find_in.
Defined.

(** "echo.local:9000": the first of the two addresses of the name. *)
Lemma resolve_name_witness :
  Resolve.ResolveUDPTarget (NET:=Echo.literals) Echo.resolver
    ("echo.local" +:+ ":" +:+ "9000")
  = ([Resolve.LResolved "echo.local"
        [Resolve.IPv4 Byte.x0a Byte.x00 Byte.x00 Byte.x07;
         Resolve.IPv4 Byte.x0a Byte.x00 Byte.x00 Byte.x08];
      Resolve.LSelected "first" "echo.local:9000"
        (Resolve.IPv4 Byte.x0a Byte.x00 Byte.x00 Byte.x07) 9000],
     Ok {| Resolve.IP := Resolve.IPv4 Byte.x0a Byte.x00 Byte.x00 Byte.x07;
           Resolve.Port := 9000; Resolve.Zone := "" |}).
Proof.
  apply (ResolveFacts.resolve_name (NET:=Echo.literals) Echo.resolver
           "echo.local" "9000" 9000);
    [repeat split | discriminate | reflexivity | reflexivity].
Defined.

(** "127.0.0.1:80" and ":80". *)
Lemma resolve_bind_and_literal_witness :
  Resolve.ResolveUDPTarget (NET:=Echo.literals) Echo.resolver (":" +:+ "80")
    = ([], Ok {| Resolve.IP := Resolve.IPv4 Byte.x00 Byte.x00 Byte.x00 Byte.x00;
                 Resolve.Port := 80; Resolve.Zone := "" |}) /\
  Resolve.ResolveUDPTarget (NET:=Echo.literals) Echo.resolver ("127.0.0.1" +:+ ":" +:+ "80")
    = ([], Ok {| Resolve.IP := Resolve.IPv4 Byte.x7f Byte.x00 Byte.x00 Byte.x01;
                 Resolve.Port := 80; Resolve.Zone := "" |}).
Proof.
  destruct (ResolveFacts.resolve_bind_and_literal (NET:=Echo.literals) Echo.resolver
              "80" 80 eq_refl) as [Hbind Hlit].
  split; [exact Hbind|].
  apply Hlit; [repeat split | discriminate | reflexivity].
Defined.

(** C7 (counterexample). "::1" parses as an IP and "80" as an integer, but
    "::1:80" is refused: [SplitHostPort] reports too many colons, the
    fallback cuts the leading colon and takes ":1:80" for the port. *)
Lemma resolve_ipv6_counterexample :
  Resolve.ParseIP (Net:=Echo.literals) "::1" = Some (repeat Byte.x00 15 ++ [Byte.x01]) /\
  Resolve.Atoi "80" = Ok 80 /\
  Resolve.SplitHostPort ("::1" +:+ ":" +:+ "80") = Err Resolve.TooManyColons /\
  Resolve.CutPrefix ("::1" +:+ ":" +:+ "80") ":" = (":1:80"%string, true) /\
  Resolve.ResolveUDPTarget (NET:=Echo.literals) Echo.resolver ("::1" +:+ ":" +:+ "80")
    = ([], Err (Resolve.InvalidPort "::1:80" Resolve.ErrSyntax)).
Proof. repeat split; reflexivity. Qed.

(** The request of Echo.Say alone and in a buffer with stale bytes behind. *)
Lemma parse_ignores_capacity_witness :
  match parseFramedRequest (Echo.request "Echo" "Say"),
        parseFramedRequest (Echo.request_in_buffer "Echo" "Say") with
  | Ok (s1, m1, h1, p1), Ok (s2, m2, h2, p2) =>
      s1 = s2 /\ m1 = m2 /\ elems h1 = elems h2 /\ elems p1 = elems p2
  | Panic _, Panic _ => True
  | _, _ => False
  end.
Proof.
  apply (parse_ignores_capacity (Echo.request "Echo" "Say")
           (Echo.request_in_buffer "Echo" "Say")).
  - apply slice_of_wf.
  - unfold slice_wf, cap. vm_compute. lia.
  - reflexivity.
Defined.

(** A server made for ":9000" with one element and no service registered,
    and a call of Echo.Say. *)
Lemma new_server_answers_nothing_witness :
  Forall (fun e => is_send e = false /\ stage_of e <> Some INVOKE)
    (Start (Echo.new_server Echo.counting_chain)
       [RecvData (Echo.request "Echo" "Say") Echo.peer 7] 0%nat).1.1.
Proof.
  apply (new_server_answers_nothing Echo.packages ":9000" Echo.string_serializer [tt]).
  reflexivity.
Defined.

(** Registering the echo service on the empty server, then a call of
    Echo.Say. *)
Lemma registered_method_is_invoked_witness :
  exists req' m md w1,
    In (EHandler (ServiceName req') (Method req') (ServiceImpl Echo.echo_desc)
          (NewIncomingContext Background md) (Payload req')
          (Handler m (ServiceImpl Echo.echo_desc) (NewIncomingContext Background md)
             (dec (RegisterService (Echo.new_server Echo.counting_chain)
                     Echo.echo_desc ANil).1 req') w1).1)
       (events (RegisterService (Echo.new_server Echo.counting_chain)
                  Echo.echo_desc ANil).1
          (RecvData (Echo.request "Echo" "Say") Echo.peer 7) 0%nat).
Proof.
  do 4 eexists.
  eapply (registered_method_is_invoked (Echo.new_server Echo.counting_chain)
            Echo.echo_desc ANil (Echo.request "Echo" "Say") Echo.peer 7 0%nat);
    reflexivity.
Defined.

(** "127.0.0.1:80" resolves; its port is what follows the last colon. *)
Lemma resolved_port_follows_last_colon_witness :
  ("127.0.0.1:80"%string = ""%string /\ 80 = 0) \/
  (exists host,
     Resolve.SplitHostPort "127.0.0.1:80"
       = Ok (host, Resolve.from "127.0.0.1:80"
                     (Resolve.LastIndexByte "127.0.0.1:80" ":" + 1)) /\
     Resolve.Atoi (Resolve.from "127.0.0.1:80"
                     (Resolve.LastIndexByte "127.0.0.1:80" ":" + 1)) = Ok 80).
Proof.
  apply (ResolveFacts.resolved_port_follows_last_colon (NET:=Echo.literals)
           Echo.resolver "127.0.0.1:80"
           {| Resolve.IP := Resolve.IPv4 Byte.x7f Byte.x00 Byte.x00 Byte.x01;
              Resolve.Port := 80; Resolve.Zone := "" |}).
  reflexivity.
Defined.

(** "localhost" has no port. *)
Lemma resolve_without_port_witness :
  Resolve.ResolveUDPTarget (NET:=Echo.literals) Echo.resolver "localhost"
  = ([], Err (Resolve.InvalidAddr "localhost" Resolve.MissingPort)).
Proof.
  apply (ResolveFacts.resolve_without_port (NET:=Echo.literals) Echo.resolver "localhost");
    [discriminate | reflexivity].
Defined.

(** "[::1]:80". *)
Lemma resolve_bracketed_witness :
  Resolve.ResolveUDPTarget (NET:=Echo.literals) Echo.resolver
    ("[" +:+ "::1" +:+ "]:" +:+ "80")
  = ([], Ok {| Resolve.IP := repeat Byte.x00 15 ++ [Byte.x01];
               Resolve.Port := 80; Resolve.Zone := "" |}).
Proof.
  apply (ResolveFacts.resolve_bracketed (NET:=Echo.literals) Echo.resolver "::1" "80" 80);
    [reflexivity | reflexivity | discriminate | reflexivity | reflexivity].
Defined.

(** 65537 header bytes: the prefix says 1. *)
Lemma long_headers_spill_into_payload_witness :
  exists f, frameResponse "Echo" "Say" Echo.long_headers (bytes_of_string "hello") = Ok f /\
    forall d, slice_wf d -> elems d = f ->
      exists hs ps,
        parseFramedRequest d = Ok ("Echo"%string, "Say"%string, hs, ps) /\
        elems hs = firstn (Z.to_nat (Z.of_nat (length Echo.long_headers) mod 2 ^ 16))
                     Echo.long_headers /\
        elems ps = skipn (Z.to_nat (Z.of_nat (length Echo.long_headers) mod 2 ^ 16))
                     Echo.long_headers ++ bytes_of_string "hello" /\
        elems hs <> Echo.long_headers.
Proof.
  apply (long_headers_spill_into_payload "Echo" "Say" Echo.long_headers
           (bytes_of_string "hello"));
    vm_compute; first [discriminate | reflexivity].
Defined.

(** A call of Echo.Say behind the decoding chain: the handler of "Say"
    calls the decoder. *)
Lemma non_bytes_payload_panics_witness :
  exists req' md w2 pre,
    serve (Echo.server Echo.decoding_chain)
      [RecvData (Echo.request "Echo" "Say") Echo.peer 7; RecvNil] 0%nat =
      (pre ++ [EHandler (ServiceName req') (Method req') (ServiceImpl Echo.echo_desc)
                 (NewIncomingContext Background md) (Payload req')
                 (Panic "interface conversion: interface {} is not []uint8")],
       w2, Panicked "interface conversion: interface {} is not []uint8").
Proof.
  do 3 eexists.
  eapply (non_bytes_payload_panics (Echo.server Echo.decoding_chain)
            (Echo.request "Echo" "Say") Echo.peer 7 0%nat);
    try reflexivity.
  intros b. discriminate.
Defined.

End EchoRuns.
